(** * Micro Business ROI Forecast: the computation of [app.py]

    The script reads five integers from sidebar widgets, derives the
    summary totals (lines 31-38), renders them, and then builds the
    year-indexed projection table (lines 57-69).

    Python [int] is modelled by [Z]; Python [float] by the IEEE 754
    binary64 format of the standard library's executable specification
    ([SpecFloat], precision 53, exponent bound 1024).  Python exceptions
    are modelled by an error monad. *)

From Stdlib Require Import Ascii String DecimalString DecimalPos DecimalZ.
From Stdlib Require Import ZArith List Bool Lia.
From Stdlib Require Import QArith Qabs Qpower Qfield Lqa.
From Stdlib Require Import Floats.SpecFloat.
Import ListNotations.

Open Scope Z_scope.

(** ** Python values and primitive operations *)

Module Py.

(** The exceptions of the operations modelled here: integer true
    division, int-to-float conversion and list indexing.  Exceptions of
    text formatting and of the plotting library are outside the model. *)
Inductive exn : Type :=
| ZeroDivisionError
| OverflowError
| IndexError.

Inductive result (A : Type) : Type :=
| Ok (a : A)
| Raise (e : exn).
Arguments Ok {A} a.
Arguments Raise {A} e.

Definition bind {A B} (r : result A) (k : A -> result B) : result B :=
  match r with
  | Ok a => k a
  | Raise e => Raise e
  end.

Fixpoint mapM {A B} (f : A -> result B) (l : list A) : result (list B) :=
  match l with
  | [] => Ok []
  | a :: l' =>
      bind (f a) (fun b => bind (mapM f l') (fun bs => Ok (b :: bs)))
  end.

(** binary64 *)
Definition prec : Z := 53.
Definition emax : Z := 1024.
Definition float : Type := spec_float.

(** [float(z)] for an int [z]: nearest binary64, ties to even;
    [OverflowError] when the int is too large. *)
Definition float_of_int (z : Z) : result float :=
  match binary_normalize prec emax z 0 false with
  | S754_infinity _ => Raise OverflowError
  | f => Ok f
  end.

(** The exact integer operand handed to the division: an int of any
    size is a sign and a magnitude with exponent 0. *)
Definition int_operand (z : Z) : float :=
  match z with
  | Z0 => S754_zero false
  | Zpos p => S754_finite false p 0
  | Zneg p => S754_finite true p 0
  end.

(** [a / b] on ints (true division): [ZeroDivisionError] on a zero
    divisor, otherwise the correctly rounded quotient of the two exact
    integers, [OverflowError] when it exceeds the float range. *)
Definition int_truediv (a b : Z) : result float :=
  if b =? 0 then Raise ZeroDivisionError
  else match SFdiv prec emax (int_operand a) (int_operand b) with
       | S754_infinity _ => Raise OverflowError
       | f => Ok f
       end.

(** [x * k] for a float [x] and an int [k]: the int is converted
    first, then the IEEE product is taken. *)
Definition float_mul_int (x : float) (k : Z) : result float :=
  bind (float_of_int k) (fun y => Ok (SFmul prec emax x y)).

(** [list(range(lo, hi))] *)
Definition range (lo hi : Z) : list Z :=
  map (fun k => lo + Z.of_nat k) (seq 0 (Z.to_nat (hi - lo))).

(** [len(l)] *)
Definition len {A} (l : list A) : Z := Z.of_nat (length l).

(** [l[k]]: negative indices count from the end, an index outside
    the list raises [IndexError]. *)
Definition getitem {A} (l : list A) (k : Z) : result A :=
  let k' := if k <? 0 then k + len l else k in
  if k' <? 0 then Raise IndexError
  else match nth_error l (Z.to_nat k') with
       | Some a => Ok a
       | None => Raise IndexError
       end.

(** The rational value of a finite float (0 for the others). *)
Definition to_Q (f : float) : Q :=
  match f with
  | S754_finite s m e => (inject_Z (cond_Zopp s (Zpos m)) * 2 ^ e)%Q
  | _ => 0%Q
  end.

Definition is_finite (f : float) : bool :=
  match f with
  | S754_finite _ _ _ | S754_zero _ => true
  | _ => false
  end.

End Py.

Import Py.

Notation "x <- c1 ;; c2" := (Py.bind c1 (fun x => c2))
  (at level 61, c1 at next level, right associativity).

(** ** The inputs (lines 24-28) *)

Record Inputs : Type := {
  num_businesses : Z;
  purchase_price : Z;
  annual_cost : Z;
  resale_value : Z;
  resale_year : Z
}.

(** What the sidebar widgets can deliver. *)
Definition widget_inputs (i : Inputs) : Prop :=
  In (num_businesses i) [10; 20; 50; 100; 200] /\
  In (purchase_price i) [99; 149; 199] /\
  10 <= annual_cost i <= 100 /\
  1000 <= resale_value i <= 100000 /\
  3 <= resale_year i <= 20.

(** The spec's notion of a valid input: all five positive. *)
Definition valid_inputs (i : Inputs) : Prop :=
  0 < num_businesses i /\ 0 < purchase_price i /\ 0 < annual_cost i /\
  0 < resale_value i /\ 0 < resale_year i.

(** ** Derived values (lines 31-38) *)

Section Derived.
Variable i : Inputs.

Definition total_years : Z := resale_year i.
Definition initial_investment : Z := num_businesses i * purchase_price i.
Definition total_annual_cost : Z :=
  annual_cost i * total_years * num_businesses i.
Definition total_cost : Z := initial_investment + total_annual_cost.
Definition total_revenue : Z := resale_value i * num_businesses i.
Definition net_profit : Z := total_revenue - total_cost.

Definition roi : result float :=
  x <- int_truediv net_profit total_cost ;;
  float_mul_int x 100.

Definition roi_per_business : result float :=
  x <- int_truediv
         (resale_value i - (purchase_price i + annual_cost i * resale_year i))
         (purchase_price i + annual_cost i * resale_year i) ;;
  float_mul_int x 100.

(** ** Yearly table (lines 57-61) *)

Definition years : list Z := range 1 (resale_year i + 1).

Definition cumulative_costs : list Z :=
  map (fun y => initial_investment + (y * annual_cost i * num_businesses i))
      years.

Definition revenue : list Z :=
  map (fun y => if y <? resale_year i then 0 else total_revenue) years.

Definition profit : result (list Z) :=
  mapM (fun k =>
          r <- getitem revenue k ;;
          c <- getitem cumulative_costs k ;;
          Ok (r - c))
       (range 0 (len years)).

Definition roi_over_time : result (list float) :=
  p <- profit ;;
  mapM (fun k =>
          pk <- getitem p k ;;
          c <- getitem cumulative_costs k ;;
          x <- int_truediv pk c ;;
          float_mul_int x 100)
       (range 0 (len years)).
End Derived.

(** ** What the script renders

    The summary metrics are rendered (lines 41-52) after [roi] and
    [roi_per_business] have been computed and before the table is built,
    so an exception at line 37 or 38 leaves nothing rendered, while an
    exception at line 61 leaves the summary on the page. *)

Record Summary : Type := {
  s_initial_investment : Z;
  s_total_annual_cost : Z;
  s_total_cost : Z;
  s_total_revenue : Z;
  s_net_profit : Z;
  s_roi : float;
  s_roi_per_business : float
}.

Definition summary (i : Inputs) : result Summary :=
  r <- roi i ;;
  rb <- roi_per_business i ;;
  Ok {| s_initial_investment := initial_investment i;
        s_total_annual_cost := total_annual_cost i;
        s_total_cost := total_cost i;
        s_total_revenue := total_revenue i;
        s_net_profit := net_profit i;
        s_roi := r;
        s_roi_per_business := rb |}.

(** The data frame of lines 63-69, column by column. *)
Record DataFrame : Type := {
  Year : list Z;
  Cumulative_Cost : list Z;
  Projected_Revenue : list Z;
  Net_Profit : list Z;
  ROI : list float
}.

Definition df (i : Inputs) : result DataFrame :=
  p <- profit i ;;
  r <- roi_over_time i ;;
  Ok {| Year := years i;
        Cumulative_Cost := cumulative_costs i;
        Projected_Revenue := revenue i;
        Net_Profit := p;
        ROI := r |}.

Record Row : Type := {
  r_year : Z;
  r_cumulative_cost : Z;
  r_revenue : Z;
  r_net_profit : Z;
  r_roi : float
}.

(** The rows of a data frame, as the CSV export lists them. *)
Definition rows (d : DataFrame) : list Row :=
  map (fun t =>
         match t with
         | (y, (c, (r, (p, x)))) =>
             {| r_year := y; r_cumulative_cost := c; r_revenue := r;
                r_net_profit := p; r_roi := x |}
         end)
      (combine (Year d)
         (combine (Cumulative_Cost d)
            (combine (Projected_Revenue d)
               (combine (Net_Profit d) (ROI d))))).

(** The outcome of lines 31-69.  [Completed] says that the summary and
    the data frame have been computed; the charts, the CSV export and
    the report that follow line 69 are not modelled.  The formatting of
    the metrics (lines 45-52) is taken to succeed, which CPython
    guarantees for integers of at most 4300 decimal digits; the results
    below that assert [Completed] or [FailedAfterSummary] are stated for
    inputs of bounded size.  [Failed] is reached at line 37 or 38,
    before any formatting. *)
Inductive outcome : Type :=
| Failed (e : exn)
| FailedAfterSummary (s : Summary) (e : exn)
| Completed (s : Summary) (d : DataFrame).

Definition script (i : Inputs) : outcome :=
  match summary i with
  | Raise e => Failed e
  | Ok s =>
      match df i with
      | Raise e => FailedAfterSummary s e
      | Ok d => Completed s d
      end
  end.

(** The spec's scenario 1. *)
Definition scenario1 : Inputs :=
  {| num_businesses := 10; purchase_price := 99; annual_cost := 50;
     resale_value := 10000; resale_year := 10 |}.

(** Inputs outside the widget ranges, used to probe the script's
    behaviour on invalid data: a zero holding period, and a negative
    annual cost that cancels the purchase price. *)
Definition zero_year_inputs : Inputs :=
  {| num_businesses := 10; purchase_price := 99; annual_cost := 50;
     resale_value := 10000; resale_year := 0 |}.

Definition zero_cost_inputs : Inputs :=
  {| num_businesses := 10; purchase_price := 99; annual_cost := -33;
     resale_value := 10000; resale_year := 3 |}.

(** The script stops with an exception before anything is rendered. *)
Definition rejected (i : Inputs) : Prop :=
  exists e : exn, script i = Failed e.

(** The "Annual Maintenance" metric of line 46. *)
Definition annual_maintenance (i : Inputs) : Z :=
  annual_cost i * num_businesses i.

(** The float [-100.0]. *)
Definition minus_hundred : float :=
  S754_finite true 7036874417766400 (-46).

(** Scenario 1 with twenty times as many businesses. *)
Definition scenario1_scaled : Inputs :=
  {| num_businesses := 200; purchase_price := 99; annual_cost := 50;
     resale_value := 10000; resale_year := 10 |}.

(** A negative annual cost that cancels the purchase price after one
    year, while the totals over three years are non-zero. *)
Definition zero_first_year_inputs : Inputs :=
  {| num_businesses := 10; purchase_price := 99; annual_cost := -99;
     resale_value := 10000; resale_year := 3 |}.

(** The lower and upper corners of the widget ranges. *)
Definition widget_low : Inputs :=
  {| num_businesses := 10; purchase_price := 99; annual_cost := 10;
     resale_value := 1000; resale_year := 3 |}.

(** ** Text formatting (lines 45-52)

    The three format specifications the script uses, as Python's
    [format] defines them. *)

(** [f"{z}"]: the decimal digits, with a leading [-] when negative. *)
Definition str_int (z : Z) : string := NilZero.string_of_int (Z.to_int z).

(** A comma after every third digit, counted on the reversed digits. *)
Fixpoint group3 (l : list ascii) (k : nat) : list ascii :=
  match l with
  | [] => []
  | c :: l' =>
      match k with
      | O => ","%char :: c :: group3 l' 2
      | S k' => c :: group3 l' k'
      end
  end.

(** [f"{z:,}"]: thousands separators in the digits of [abs(z)], the
    sign in front. *)
Definition format_comma (z : Z) : string :=
  let body :=
    string_of_list_ascii
      (rev (group3 (rev (list_ascii_of_string (str_int (Z.abs z)))) 3)) in
  if z <? 0 then String "-" body else body.

(** The nearest integer, ties to the even one. *)
Definition round_half_even (x : Q) : Z :=
  let n := Qnum x / QDen x in
  let r := Qnum x mod QDen x in
  match 2 * r ?= QDen x with
  | Lt => n
  | Gt => n + 1
  | Eq => if Z.even n then n else n + 1
  end.

Definition digit (k : Z) : ascii := ascii_of_nat (48 + Z.to_nat k).

Definition sign_str (s : bool) : string :=
  if s then "-"%string else ""%string.

(** A non-negative number of hundredths, written with two decimals. *)
Definition fixed2 (q : Z) : string :=
  String.append (str_int (q / 100))
    (String "." (String (digit (q mod 100 / 10))
                   (String (digit (q mod 10)) EmptyString))).

(** The magnitude of a finite float in hundredths, correctly rounded. *)
Definition hundredths (m : positive) (e : Z) : Z :=
  round_half_even (inject_Z (Zpos m) * 2 ^ e * 100).

(** [f"{x:.2f}"]: the exact binary value rounded to two decimals, ties
    to even; the sign bit is printed even when the digits are all
    zero. *)
Definition format_2f (f : float) : string :=
  match f with
  | S754_nan => "nan"%string
  | S754_infinity s => String.append (sign_str s) "inf"
  | S754_zero s => String.append (sign_str s) "0.00"
  | S754_finite s m e => String.append (sign_str s) (fixed2 (hundredths m e))
  end.

(** [f"${z:,}"] and [f"{x:.2f}%"] *)
Definition dollars (z : Z) : string := String "$" (format_comma z).
Definition percent_text (x : float) : string :=
  String.append (format_2f x) "%".

(** The six metrics of lines 45-52, label and value. *)
Definition metrics (i : Inputs) (s : Summary) : list (string * string) :=
  [ ("Initial Investment"%string, dollars (s_initial_investment s));
    ("Annual Maintenance"%string, dollars (annual_cost i * num_businesses i));
    ("Total Cost Over Time"%string, dollars (s_total_cost s));
    ("Projected Revenue"%string, dollars (s_total_revenue s));
    ("Net Profit"%string, dollars (s_net_profit s));
    ("Total ROI"%string, percent_text (s_roi s)) ].

Definition is_digit (c : ascii) : bool :=
  let n := Z.of_nat (nat_of_ascii c) in (48 <=? n) && (n <=? 57).

Definition not_comma (c : ascii) : bool := negb (Ascii.eqb c ","%char).

(** Reading the texts back: a decimal integer, a dollar amount with
    separators, and a percentage with two decimals. *)
Definition read_int (s : string) : option Z :=
  option_map Z.of_int (NilZero.int_of_string s).

Definition remove_commas (s : string) : string :=
  string_of_list_ascii
    (filter (fun c => negb (Ascii.eqb c ","%char)) (list_ascii_of_string s)).

Definition read_dollars (s : string) : option Z :=
  match s with
  | String "$" t => read_int (remove_commas t)
  | _ => None
  end.

Fixpoint split_dot (s : string) : option (string * string) :=
  match s with
  | EmptyString => None
  | String c t =>
      if Ascii.eqb c "."%char then Some (EmptyString, t)
      else match split_dot t with
           | Some (a, b) => Some (String c a, b)
           | None => None
           end
  end.

Definition read_digit (c : ascii) : option Z :=
  let n := Z.of_nat (nat_of_ascii c) in
  if (48 <=? n) && (n <=? 57) then Some (n - 48) else None.

Definition read_fixed2 (s : string) : option Q :=
  let (neg, body) :=
    match s with
    | String "-" t => (true, t)
    | _ => (false, s)
    end in
  match split_dot body with
  | Some (ip, String d1 (String d2 EmptyString)) =>
      match read_int ip, read_digit d1, read_digit d2 with
      | Some n, Some a, Some b =>
          if n <? 0 then None
          else let q := n * 100 + a * 10 + b in
               Some (inject_Z (if neg then - q else q) / 100)%Q
      | _, _, _ => None
      end
  | _ => None
  end.

Definition read_percent (s : string) : option Q :=
  match rev (list_ascii_of_string s) with
  | c :: l =>
      if Ascii.eqb c "%"%char
      then read_fixed2 (string_of_list_ascii (rev l))
      else None
  | [] => None
  end.

(** ** Exact-arithmetic reference values *)

Definition ratio (a b : Z) : Q := (inject_Z a / inject_Z b)%Q.

Definition roi_exact (i : Inputs) : Q :=
  (ratio (net_profit i) (total_cost i) * 100)%Q.

Definition roi_per_business_exact (i : Inputs) : Q :=
  (ratio (resale_value i - (purchase_price i + annual_cost i * resale_year i))
         (purchase_price i + annual_cost i * resale_year i) * 100)%Q.

(** Row [y] of the table, computed from the inputs and [y] alone. *)
Definition cumulative_cost_at (i : Inputs) (y : Z) : Z :=
  initial_investment i + (y * annual_cost i * num_businesses i).

Definition revenue_at (i : Inputs) (y : Z) : Z :=
  if y <? resale_year i then 0 else total_revenue i.

Definition row_at (i : Inputs) (y : Z) : result Row :=
  x <- int_truediv (revenue_at i y - cumulative_cost_at i y)
                   (cumulative_cost_at i y) ;;
  r <- float_mul_int x 100 ;;
  Ok {| r_year := y;
        r_cumulative_cost := cumulative_cost_at i y;
        r_revenue := revenue_at i y;
        r_net_profit := revenue_at i y - cumulative_cost_at i y;
        r_roi := r |}.

(** Totals far from the overflow threshold of binary64; every widget
    input is of this kind. *)
Definition moderate (i : Inputs) : Prop :=
  total_revenue i < 2 ^ 512 /\ total_cost i < 2 ^ 512.

(** Four amounts of at most a hundred bits each, of either sign, and a
    holding period short enough for the lists of lines 57-61 to be
    built. *)
Definition small_inputs (i : Inputs) : Prop :=
  Z.abs (num_businesses i) < 2 ^ 100 /\
  Z.abs (purchase_price i) < 2 ^ 100 /\
  Z.abs (annual_cost i) < 2 ^ 100 /\
  Z.abs (resale_value i) < 2 ^ 100 /\
  Z.abs (resale_year i) < 2 ^ 20.

(** ** Rounding: vocabulary

    The unit roundoff of binary64, and the tolerance that a division
    followed by a multiplication can accumulate. *)

Definition u53 : Q := 1 # 9007199254740992.
Definition eps : Q := 1 # 2251799813685248.

(** [f] is within one rounding of the rational [x]. *)
Definition near (f : float) (x : Q) : Prop :=
  (Qabs (to_Q f - x) <= u53 * Qabs x)%Q.

Definition normal_or_zero (f : float) : Prop :=
  match f with
  | S754_zero _ => True
  | S754_finite _ m e => 2 ^ 52 <= Zpos m < 2 ^ 53 /\ -565 <= e <= 460
  | _ => False
  end.

(** The rounding of [SpecFloat] keeps, next to a truncated mantissa, a
    round bit and a sticky bit.  [located mrs N D] reads such a record
    as the place of the rational [N / D] between [shr_m mrs] and its
    successor. *)
Definition located (mrs : shr_record) (N D : Z) : Prop :=
  let m := shr_m mrs in
  match shr_r mrs, shr_s mrs with
  | false, false => N = m * D
  | false, true => 2 * (m * D) < 2 * N < 2 * (m * D) + D
  | true, false => 2 * N = 2 * (m * D) + D
  | true, true => 2 * (m * D) + D < 2 * N < 2 * (m * D) + 2 * D
  end.

(** The second half of [binary_round_aux]: round to nearest even,
    renormalise after a carry, check the exponent range. *)
Definition finish (s : bool) (mrs : shr_record) (e : Z) : spec_float :=
  let '(mrs2, e2) :=
    shr_fexp prec emax
      (round_nearest_even (shr_m mrs) (loc_of_shr_record mrs)) e loc_Exact in
  match shr_m mrs2 with
  | Z0 => S754_zero s
  | Zpos m =>
      if e2 <=? emax - prec then S754_finite s m e2 else S754_infinity s
  | Zneg _ => S754_nan
  end.

(** * Properties *)

(** ** The primitives on known values

    [1 / 3], a negative zero, and the two exceptions of true division,
    as CPython returns them. *)

Example int_truediv_third :
  int_truediv 1 3 = Ok (S754_finite false 6004799503160661 (-54)).
Proof. reflexivity. Qed.

Example int_truediv_negative_zero :
  int_truediv 0 (-5) = Ok (S754_zero true).
Proof. reflexivity. Qed.

Example int_truediv_by_zero : int_truediv 5 0 = Raise ZeroDivisionError.
Proof. reflexivity. Qed.

Example int_truediv_too_large :
  int_truediv (2 ^ 2000) 3 = Raise OverflowError.
Proof. vm_compute. reflexivity. Qed.

Example float_of_int_hundred :
  float_of_int 100 = Ok (S754_finite false 7036874417766400 (-46)).
Proof. reflexivity. Qed.

(** ** Lists, ranges and indexing *)

Section ListFacts.

Lemma range_length lo hi : length (range lo hi) = Z.to_nat (hi - lo).
Proof. unfold range. now rewrite length_map, length_seq. Qed.

Lemma range_nth lo hi (k : nat) :
  (k < Z.to_nat (hi - lo))%nat ->
  nth_error (range lo hi) k = Some (lo + Z.of_nat k).
Proof.
  intros Hk. unfold range.
  rewrite nth_error_map, nth_error_seq.
  destruct (Nat.ltb_spec k (Z.to_nat (hi - lo))); [reflexivity | lia].
Qed.

Lemma range_In lo hi y : In y (range lo hi) <-> lo <= y < hi.
Proof.
  unfold range. rewrite in_map_iff. split.
  - intros (k & <- & Hk). apply in_seq in Hk. lia.
  - intros Hy. exists (Z.to_nat (y - lo)). split; [lia |].
    apply in_seq. lia.
Qed.

Lemma getitem_app {A} (pre l : list A) (a : A) :
  getitem (pre ++ a :: l) (Z.of_nat (length pre)) = Ok a.
Proof.
  unfold getitem.
  destruct (Z.ltb_spec (Z.of_nat (length pre)) 0) as [H | H]; [lia |].
  destruct (Z.ltb_spec (Z.of_nat (length pre)) 0); [lia |].
  rewrite Nat2Z.id, nth_error_app2 by lia.
  now rewrite Nat.sub_diag.
Qed.

(** Walking two lists of equal length by index is walking them in
    step. *)
Lemma mapM_index_from {A B C} (F : A -> B -> result C) :
  forall (la : list A) (lb : list B) (pa : list A) (pb : list B),
    length pa = length pb ->
    length la = length lb ->
    mapM (fun k => a <- getitem (pa ++ la) k ;;
                   b <- getitem (pb ++ lb) k ;;
                   F a b)
         (map (fun k => 0 + Z.of_nat k) (seq (length pa) (length la)))
    = mapM (fun ab => F (fst ab) (snd ab)) (combine la lb).
Proof.
  induction la as [| a la IH]; intros lb pa pb Hp Hl.
  - reflexivity.
  - destruct lb as [| b lb]; [discriminate |].
    cbn [length seq map mapM combine fst snd].
    rewrite Z.add_0_l, getitem_app. cbn [bind].
    rewrite Hp, getitem_app. cbn [bind].
    injection Hl as Hl.
    specialize (IH lb (pa ++ [a]) (pb ++ [b])).
    rewrite <- !app_assoc, !length_app in IH. cbn [length app] in IH.
    rewrite Nat.add_1_r in IH.
    rewrite <- Hp. rewrite IH by lia. reflexivity.
Qed.

Lemma mapM_index {A B C} (F : A -> B -> result C) (la : list A) (lb : list B) :
  length la = length lb ->
  mapM (fun k => a <- getitem la k ;; b <- getitem lb k ;; F a b)
       (range 0 (len la))
  = mapM (fun ab => F (fst ab) (snd ab)) (combine la lb).
Proof.
  intros Hl. unfold range, len. rewrite Z.sub_0_r, Nat2Z.id.
  exact (mapM_index_from F la lb [] [] eq_refl Hl).
Qed.

Lemma mapM_map {A B C} (f : B -> result C) (g : A -> B) (l : list A) :
  mapM f (map g l) = mapM (fun a => f (g a)) l.
Proof.
  induction l as [| a l IH]; [reflexivity |].
  cbn [map mapM]. now rewrite IH.
Qed.

Lemma mapM_Ok {A B} (g : A -> B) (l : list A) :
  mapM (fun a => Ok (g a)) l = Ok (map g l).
Proof.
  induction l as [| a l IH]; [reflexivity |].
  cbn [map mapM bind]. now rewrite IH.
Qed.

Lemma combine_map_same {A B C} (g : A -> B) (h : A -> C) (l : list A) :
  combine (map g l) (map h l) = map (fun a => (g a, h a)) l.
Proof.
  induction l as [| a l IH]; [reflexivity |].
  cbn [map combine]. now rewrite IH.
Qed.

Lemma mapM_length {A B} (f : A -> result B) (l : list A) (r : list B) :
  mapM f l = Ok r -> length r = length l.
Proof.
  revert r. induction l as [| a l IH]; intros r H.
  - injection H as <-. reflexivity.
  - cbn [mapM] in H. destruct (f a); [| discriminate].
    cbn [bind] in H. destruct (mapM f l) as [bs |]; [| discriminate].
    injection H as <-. cbn [length]. now rewrite (IH bs).
Qed.

End ListFacts.

(** ** Rounding to binary64 *)

Module Rounding.

Lemma digits2_pos_bounds (p : positive) :
  2 ^ (Zpos (digits2_pos p) - 1) <= Zpos p < 2 ^ Zpos (digits2_pos p).
Proof.
  induction p as [p IH | p IH |]; cbn [digits2_pos].
  - rewrite Pos2Z.inj_succ, (Pos2Z.inj_xI p).
    replace (Z.succ (Zpos (digits2_pos p)) - 1)
      with (Z.succ (Zpos (digits2_pos p) - 1)) by lia.
    rewrite !Z.pow_succ_r by lia. lia.
  - rewrite Pos2Z.inj_succ, (Pos2Z.inj_xO p).
    replace (Z.succ (Zpos (digits2_pos p)) - 1)
      with (Z.succ (Zpos (digits2_pos p) - 1)) by lia.
    rewrite !Z.pow_succ_r by lia. lia.
  - cbn. lia.
Qed.

Lemma Zdigits2_bounds (m : Z) :
  0 < m -> 2 ^ (Zdigits2 m - 1) <= m < 2 ^ Zdigits2 m.
Proof.
  destruct m as [| p | p]; try lia. intros _. apply digits2_pos_bounds.
Qed.

Lemma Zdigits2_unique (m d : Z) :
  2 ^ (d - 1) <= m < 2 ^ d -> 0 < m -> Zdigits2 m = d.
Proof.
  intros Hd Hm. pose proof (Zdigits2_bounds m Hm) as Hb.
  assert (Hpos : 0 < Zdigits2 m) by (destruct m; cbn; lia).
  destruct (Z.lt_trichotomy (Zdigits2 m) d) as [Hlt | [Heq | Hgt]]; auto.
  - assert (2 ^ Zdigits2 m <= 2 ^ (d - 1)) by (apply Z.pow_le_mono_r; lia).
    lia.
  - assert (0 < d).
    { destruct (Z.le_gt_cases d 0) as [Hd0 | ]; [| assumption].
      destruct (Z.eq_dec d 0) as [-> | ]; [cbn in Hd; lia |].
      rewrite (Z.pow_neg_r 2 d) in Hd by lia. lia. }
    assert (2 ^ d <= 2 ^ (Zdigits2 m - 1)) by (apply Z.pow_le_mono_r; lia).
    lia.
Qed.

Lemma shr_1_located (mrs : shr_record) (N D : Z) :
  0 < D -> 0 <= shr_m mrs -> located mrs N D ->
  located (shr_1 mrs) N (2 * D) /\ shr_m (shr_1 mrs) = shr_m mrs / 2.
Proof.
  destruct mrs as [m r s]. unfold located. cbn [shr_m shr_r shr_s].
  intros HD Hm H.
  destruct m as [| p | p]; [| | lia].
  - cbn [shr_1 shr_m shr_r shr_s]. split; [| reflexivity].
    destruct r, s; cbn [orb]; lia.
  - destruct p as [p | p |]; cbn [shr_1 shr_m shr_r shr_s].
    + split.
      * rewrite (Pos2Z.inj_xI p) in H. destruct r, s; cbn [orb]; lia.
      * rewrite (Pos2Z.inj_xI p). apply Z.div_unique with 1; lia.
    + split.
      * rewrite (Pos2Z.inj_xO p) in H. destruct r, s; cbn [orb]; lia.
      * rewrite (Pos2Z.inj_xO p). apply Z.div_unique with 0; lia.
    + split; [| reflexivity].
      destruct r, s; cbn [orb]; lia.
Qed.

Lemma shr_m_shr_1_nonneg (mrs : shr_record) :
  0 <= shr_m mrs -> 0 <= shr_m (shr_1 mrs).
Proof.
  intros H. destruct mrs as [m r s]. cbn [shr_m] in H.
  destruct m as [| p | p]; [| | lia]; [cbn; lia |].
  destruct p; cbn; lia.
Qed.

Lemma iter_shr_1_located (n : positive) :
  forall (mrs : shr_record) (N D : Z),
    0 < D -> 0 <= shr_m mrs -> located mrs N D ->
    located (iter_pos shr_1 n mrs) N (2 ^ Zpos n * D) /\
    shr_m (iter_pos shr_1 n mrs) = shr_m mrs / 2 ^ Zpos n /\
    0 <= shr_m (iter_pos shr_1 n mrs).
Proof.
  induction n as [n IH | n IH |]; intros mrs N D HD Hm H; cbn [iter_pos].
  - pose proof (Z.pow_pos_nonneg 2 (Zpos n) eq_refl (Pos2Z.is_nonneg n)) as Hp.
    destruct (shr_1_located mrs N D HD Hm H) as [H1 E1].
    pose proof (shr_m_shr_1_nonneg mrs Hm) as P1.
    assert (HD1 : 0 < 2 * D) by lia.
    destruct (IH _ _ _ HD1 P1 H1) as (H2 & E2 & P2).
    assert (HD2 : 0 < 2 ^ Zpos n * (2 * D)) by nia.
    destruct (IH _ _ _ HD2 P2 H2) as (H3 & E3 & P3).
    rewrite (Pos2Z.inj_xI n).
    replace (2 * Zpos n + 1) with (1 + Zpos n + Zpos n) by lia.
    rewrite !Z.pow_add_r by lia. change (2 ^ 1) with 2.
    split; [| split; [| assumption]].
    + replace (2 * 2 ^ Zpos n * 2 ^ Zpos n * D)
        with (2 ^ Zpos n * (2 ^ Zpos n * (2 * D))) by ring.
      assumption.
    + rewrite E3, E2, E1.
      rewrite !Z.div_div by (try apply Z.pow_pos_nonneg; lia).
      f_equal; ring.
  - pose proof (Z.pow_pos_nonneg 2 (Zpos n) eq_refl (Pos2Z.is_nonneg n)) as Hp.
    destruct (IH _ _ _ HD Hm H) as (H2 & E2 & P2).
    assert (HD2 : 0 < 2 ^ Zpos n * D) by nia.
    destruct (IH _ _ _ HD2 P2 H2) as (H3 & E3 & P3).
    rewrite (Pos2Z.inj_xO n).
    replace (2 * Zpos n) with (Zpos n + Zpos n) by lia.
    rewrite !Z.pow_add_r by lia.
    split; [| split; [| assumption]].
    + replace (2 ^ Zpos n * 2 ^ Zpos n * D)
        with (2 ^ Zpos n * (2 ^ Zpos n * D)) by ring.
      assumption.
    + rewrite E3, E2.
      rewrite !Z.div_div by (try apply Z.pow_pos_nonneg; lia).
      f_equal; ring.
  - destruct (shr_1_located mrs N D HD Hm H) as [H1 E1].
    change (2 ^ 1) with 2. repeat split; auto.
    now apply shr_m_shr_1_nonneg.
Qed.

Lemma binary_round_aux_finish (s : bool) (mx ex : Z) (lx : location) :
  binary_round_aux prec emax s mx ex lx =
  finish s (fst (shr_fexp prec emax mx ex lx))
           (snd (shr_fexp prec emax mx ex lx)).
Proof.
  unfold binary_round_aux, finish.
  destruct (shr_fexp prec emax mx ex lx) as [mrs1 e1]. reflexivity.
Qed.

Lemma shr_m_of_loc (m : Z) (l : location) :
  shr_m (shr_record_of_loc m l) = m.
Proof. destruct l as [| []]; reflexivity. Qed.

Lemma fexp_normal (e : Z) : -1021 <= e -> fexp prec emax e = e - 53.
Proof. unfold fexp, emin, prec, emax. lia. Qed.

Lemma digits_ge_53 (mx : Z) : 2 ^ 52 <= mx -> 53 <= Zdigits2 mx.
Proof.
  intros H. assert (Hm : 0 < mx) by (change (2 ^ 52) with 4503599627370496 in H; lia).
  pose proof (Zdigits2_bounds mx Hm) as [_ Hu].
  destruct (Z.le_gt_cases 53 (Zdigits2 mx)) as [| Hlt]; [assumption |].
  assert (2 ^ Zdigits2 mx <= 2 ^ 52) by (apply Z.pow_le_mono_r; lia).
  lia.
Qed.

(** First half: a mantissa of at least 53 bits is cut down to exactly
    53 bits, and the record still locates the same rational. *)
Lemma shr_fexp_normal (mx ex : Z) (lx : location) (N D : Z) :
  0 < D -> 2 ^ 52 <= mx -> -1074 <= ex ->
  located (shr_record_of_loc mx lx) N D ->
  let n := Zdigits2 mx - 53 in
  let r := shr_fexp prec emax mx ex lx in
  0 <= n /\ snd r = ex + n /\
  located (fst r) N (2 ^ n * D) /\
  2 ^ 52 <= shr_m (fst r) < 2 ^ 53.
Proof.
  intros HD Hmx Hex Hloc n r.
  pose proof (digits_ge_53 mx Hmx) as Hd.
  assert (Hm : 0 < mx) by (change (2 ^ 52) with 4503599627370496 in Hmx; lia).
  pose proof (Zdigits2_bounds mx Hm) as Hb.
  subst r. unfold shr_fexp. rewrite fexp_normal by lia.
  replace (Zdigits2 mx + ex - 53 - ex) with n by (subst n; lia).
  assert (Hn : 0 <= n) by (subst n; lia).
  split; [assumption |].
  destruct n as [| k | k] eqn:En; [| | lia].
  - cbn [shr fst snd]. rewrite shr_m_of_loc.
    replace (Zdigits2 mx) with 53 in Hb by lia.
    change (53 - 1) with 52 in Hb.
    repeat split; try lia.
    change (2 ^ 0) with 1. now rewrite Z.mul_1_l.
  - cbn [shr fst snd].
    destruct (iter_shr_1_located k (shr_record_of_loc mx lx) N D HD)
      as (H1 & E1 & P1); [rewrite shr_m_of_loc; lia | assumption |].
    rewrite shr_m_of_loc in E1.
    split; [reflexivity |]. split; [assumption |].
    rewrite E1.
    assert (Hk : 0 < 2 ^ Zpos k) by (apply Z.pow_pos_nonneg; lia).
    replace (Zdigits2 mx - 1) with (52 + Zpos k) in Hb by lia.
    replace (Zdigits2 mx) with (53 + Zpos k) in Hb by lia.
    rewrite !Z.pow_add_r in Hb by lia.
    split.
    + apply Z.div_le_lower_bound; lia.
    + apply Z.div_lt_upper_bound; lia.
Qed.

Lemma round_nearest_even_located (mrs : shr_record) (N D : Z) :
  0 < D -> located mrs N D ->
  let m2 := round_nearest_even (shr_m mrs) (loc_of_shr_record mrs) in
  shr_m mrs <= m2 <= shr_m mrs + 1 /\
  2 * Z.abs (m2 * D - N) <= D /\
  shr_m mrs * D <= N.
Proof.
  destruct mrs as [m r s]. unfold located. cbn [shr_m shr_r shr_s].
  intros HD H.
  destruct r, s; cbn [loc_of_shr_record round_nearest_even];
    try destruct (Z.even m); lia.
Qed.

Lemma finish_normal (s : bool) (mrs : shr_record) (e1 N D : Z) :
  0 < D -> located mrs N D ->
  2 ^ 52 <= shr_m mrs < 2 ^ 53 ->
  -1074 <= e1 -> e1 + 1 <= 971 ->
  exists (m : positive) (e : Z),
    finish s mrs e1 = S754_finite s m e /\
    2 ^ 52 <= Zpos m < 2 ^ 53 /\
    e1 <= e <= e1 + 1 /\
    2 ^ 53 * Z.abs (Zpos m * 2 ^ (e - e1) * D - N) <= N.
Proof.
  intros HD Hloc Hm He1 He2.
  destruct (round_nearest_even_located mrs N D HD Hloc) as (Hm2 & Herr & HN).
  unfold finish.
  set (m2 := round_nearest_even (shr_m mrs) (loc_of_shr_record mrs)) in *.
  change (2 ^ 52) with 4503599627370496 in *.
  change (2 ^ 53) with 9007199254740992 in *.
  unfold shr_fexp.
  destruct (Z.eq_dec m2 9007199254740992) as [E | NE].
  - rewrite E. cbn [Zdigits2 digits2_pos Pos.succ].
    rewrite fexp_normal by lia.
    replace (54 + e1 - 53 - e1) with 1 by lia.
    cbn [shr shr_record_of_loc iter_pos shr_1 shr_m fst snd].
    exists 4503599627370496%positive, (e1 + 1).
    destruct (Z.leb_spec (e1 + 1) (emax - prec)) as [_ | Hbad];
      [| unfold emax, prec in Hbad; lia].
    split; [reflexivity |]. split; [lia |]. split; [lia |].
    replace (e1 + 1 - e1) with 1 by lia. change (2 ^ 1) with 2.
    rewrite E in Herr. nia.
  - assert (Hd : Zdigits2 m2 = 53).
    { apply Zdigits2_unique; [| lia].
      change (2 ^ (53 - 1)) with 4503599627370496.
      change (2 ^ 53) with 9007199254740992. lia. }
    rewrite Hd, fexp_normal by lia.
    replace (53 + e1 - 53 - e1) with 0 by lia.
    cbn [shr shr_record_of_loc shr_m].
    destruct m2 as [| m | m]; try lia.
    exists m, e1.
    destruct (Z.leb_spec e1 (emax - prec)) as [_ | Hbad];
      [| unfold emax, prec in Hbad; lia].
    split; [reflexivity |]. split; [lia |]. split; [lia |].
    rewrite Z.sub_diag. change (2 ^ 0) with 1. nia.
Qed.

(** Rounding a mantissa of at least 53 bits, away from the subnormal
    and overflow ranges: the result is a normal float within half a
    unit in the last place, that is a relative error of [2^-53]. *)
Lemma binary_round_aux_normal (s : bool) (mx ex : Z) (lx : location) (N D : Z) :
  0 < D -> 2 ^ 52 <= mx -> -1074 <= ex ->
  Zdigits2 mx + ex <= 1023 ->
  located (shr_record_of_loc mx lx) N D ->
  exists (m : positive) (e : Z),
    binary_round_aux prec emax s mx ex lx = S754_finite s m e /\
    2 ^ 52 <= Zpos m < 2 ^ 53 /\
    ex <= e <= Zdigits2 mx + ex - 52 /\
    2 ^ 53 * Z.abs (Zpos m * 2 ^ (e - ex) * D - N) <= N.
Proof.
  intros HD Hmx Hex Hov Hloc.
  destruct (shr_fexp_normal mx ex lx N D HD Hmx Hex Hloc)
    as (Hn & He1 & Hloc1 & Hm1).
  rewrite binary_round_aux_finish.
  set (n := Zdigits2 mx - 53) in *.
  assert (Hpn : 0 < 2 ^ n) by (apply Z.pow_pos_nonneg; lia).
  destruct (finish_normal s (fst (shr_fexp prec emax mx ex lx))
              (snd (shr_fexp prec emax mx ex lx)) N (2 ^ n * D))
    as (m & e & Hf & Hm & He & Herr);
    [nia | assumption | assumption | lia | lia |].
  exists m, e. rewrite He1 in He, Herr.
  split; [assumption |]. split; [assumption |]. split; [lia |].
  replace (e - ex) with (e - (ex + n) + n) by lia.
  rewrite Z.pow_add_r by lia.
  replace (Zpos m * (2 ^ (e - (ex + n)) * 2 ^ n) * D)
    with (Zpos m * 2 ^ (e - (ex + n)) * (2 ^ n * D)) by ring.
  assumption.
Qed.

Lemma Qabs_scale (a b t : Q) : (0 < t)%Q -> (Qabs (a * t - b * t) == Qabs (a - b) * t)%Q.
Proof.
  intros Ht. setoid_replace (a * t - b * t)%Q with ((a - b) * t)%Q by ring.
  rewrite Qabs_Qmult. rewrite (Qabs_pos t) by lra. reflexivity.
Qed.

Lemma rel_err_div (M N D u : Q) :
  (0 < D)%Q -> (Qabs (M * D - N) <= u * N)%Q ->
  (Qabs (M - N / D) <= u * (N / D))%Q.
Proof.
  intros HD H.
  assert (HiD : (0 < / D)%Q) by now apply Qinv_lt_0_compat.
  setoid_replace (M - N / D)%Q with ((M * D - N) * / D)%Q by (field; lra).
  rewrite Qabs_Qmult, (Qabs_pos (/ D)) by lra.
  setoid_replace (u * (N / D))%Q with (u * N * / D)%Q by (field; lra).
  apply Qmult_le_compat_r; [assumption | lra].
Qed.

Lemma round_error_Q (m N D e ex : Z) :
  0 < D -> ex <= e ->
  2 ^ 53 * Z.abs (m * 2 ^ (e - ex) * D - N) <= N ->
  (Qabs (inject_Z m * 2 ^ e - inject_Z N / inject_Z D * 2 ^ ex)
   <= u53 * (inject_Z N / inject_Z D * 2 ^ ex))%Q.
Proof.
  intros HD He H.
  assert (Ht : (0 < 2 ^ ex)%Q) by (apply Qpower_0_lt; reflexivity).
  replace e with ((e - ex) + ex) at 1 by lia.
  rewrite Qpower_plus by discriminate.
  rewrite <- (Zpower_Qpower 2 (e - ex)) by lia.
  rewrite Qmult_assoc, <- inject_Z_mult.
  rewrite Qabs_scale by assumption.
  rewrite Qmult_assoc.
  apply Qmult_le_compat_r; [| lra].
  apply rel_err_div.
  - change 0%Q with (inject_Z 0). rewrite <- Zlt_Qlt. assumption.
  - rewrite <- inject_Z_mult. unfold Qminus. rewrite <- inject_Z_opp, <- inject_Z_plus.
    unfold u53. 
    change (Qabs (inject_Z ?z)) with (inject_Z (Z.abs z)).
    replace (m * 2 ^ (e - ex) * D + - N) with (m * 2 ^ (e - ex) * D - N) by lia.
    rewrite Zle_Qle, inject_Z_mult in H.
    change (inject_Z (2 ^ 53)) with (9007199254740992 # 1)%Q in H.
    lra.
Qed.

Lemma new_location_located (b r q : Z) :
  0 < b -> 0 <= r < b ->
  located (shr_record_of_loc q (new_location b r)) (b * q + r) b.
Proof.
  intros Hb Hr. unfold new_location, new_location_even, new_location_odd.
  destruct (Z.even b) eqn:Ev.
  - destruct (Z.eqb_spec r 0) as [-> | Hr0].
    + unfold located; cbn [shr_record_of_loc shr_m shr_r shr_s]. lia.
    + destruct (Z.compare_spec (2 * r) b); unfold located; cbn [shr_record_of_loc shr_m shr_r shr_s]; lia.
  - destruct (Z.eqb_spec r 0) as [-> | Hr0].
    + unfold located; cbn [shr_record_of_loc shr_m shr_r shr_s]. lia.
    + assert (Hodd : 2 * r + 1 = b -> 2 * r < b) by lia.
      destruct (Z.compare_spec (2 * r + 1) b); unfold located; cbn [shr_record_of_loc shr_m shr_r shr_s]; try lia.
      assert (2 * r <> b).
      { intros E. rewrite <- E, Z.even_mul in Ev. discriminate. }
      lia.
Qed.

Lemma shift_match (a s : Z) :
  0 <= s ->
  match s with
  | Zpos _ => Z.shiftl a s
  | Z0 => a
  | Zneg _ => 0
  end = a * 2 ^ s.
Proof.
  intros Hs. destruct s as [| p | p]; [cbn; lia | | lia].
  apply Z.shiftl_mul_pow2. lia.
Qed.

Lemma digits_le (m k : Z) : 0 < m -> m < 2 ^ k -> Zdigits2 m <= k.
Proof.
  intros Hm Hk. pose proof (Zdigits2_bounds m Hm) as [Hl _].
  destruct (Z.le_gt_cases (Zdigits2 m) k) as [| Hgt]; [assumption |].
  assert (0 <= k).
  { destruct (Z.le_gt_cases 0 k); [assumption |].
    rewrite Z.pow_neg_r in Hk by lia. lia. }
  assert (2 ^ k <= 2 ^ (Zdigits2 m - 1)) by (apply Z.pow_le_mono_r; lia).
  lia.
Qed.

Lemma digits_pos (m : Z) : 0 < m -> 1 <= Zdigits2 m.
Proof. destruct m; cbn; lia. Qed.

Lemma SFdiv_core_normal (pa pb : positive) :
  Zpos pa < 2 ^ 512 -> Zpos pb < 2 ^ 512 ->
  exists (q s : Z) (l : location),
    SFdiv_core_binary prec emax (Zpos pa) 0 (Zpos pb) 0 = (q, - s, l) /\
    0 <= s <= 565 /\ 2 ^ 52 <= q /\ Zdigits2 q - s <= 512 /\
    located (shr_record_of_loc q l) (Zpos pa * 2 ^ s) (Zpos pb).
Proof.
  intros Ha Hb.
  pose proof (Zdigits2_bounds (Zpos pa) eq_refl) as Ba.
  pose proof (Zdigits2_bounds (Zpos pb) eq_refl) as Bb.
  pose proof (digits_le (Zpos pa) 512 eq_refl Ha) as La.
  pose proof (digits_le (Zpos pb) 512 eq_refl Hb) as Lb.
  pose proof (digits_pos (Zpos pa) eq_refl) as Pa.
  pose proof (digits_pos (Zpos pb) eq_refl) as Pb.
  unfold SFdiv_core_binary.
  set (d1 := Zdigits2 (Zpos pa)) in *. set (d2 := Zdigits2 (Zpos pb)) in *.
  rewrite !Z.add_0_r, fexp_normal by lia.
  set (s := Z.max (53 - (d1 - d2)) 0).
  replace (Z.min (d1 - d2 - 53) (0 - 0)) with (- s) by (subst s; lia).
  replace (0 - 0 - - s) with s by lia.
  assert (Hs : 0 <= s <= 565) by (subst s; lia).
  rewrite shift_match by lia.
  pose proof (Z_div_mod (Zpos pa * 2 ^ s) (Zpos pb) eq_refl) as Hdm.
  destruct (Z.div_eucl (Zpos pa * 2 ^ s) (Zpos pb)) as [q r].
  destruct Hdm as [Hq Hr].
  exists q, s, (new_location (Zpos pb) r).
  split; [reflexivity |]. split; [assumption |].
  assert (Hps : 0 < 2 ^ s) by (apply Z.pow_pos_nonneg; lia).
  assert (Hbig : 2 ^ 52 * 2 ^ d2 <= Zpos pa * 2 ^ s).
  { rewrite <- Z.pow_add_r by lia.
    destruct (Z.le_gt_cases (d1 - d2) 53) as [Hc | Hc].
    - replace s with (53 - (d1 - d2)) in * by (subst s; lia).
      replace (52 + d2) with ((d1 - 1) + (53 - (d1 - d2))) by lia.
      rewrite Z.pow_add_r by lia. nia.
    - replace s with 0 in * by (subst s; lia). rewrite Z.mul_1_r.
      assert (2 ^ (52 + d2) <= 2 ^ (d1 - 1)) by (apply Z.pow_le_mono_r; lia).
      lia. }
  assert (Hq52 : 2 ^ 52 <= q).
  { assert (0 < 2 ^ 52) by reflexivity.
    destruct (Z.le_gt_cases (2 ^ 52) q); [assumption | exfalso]. nia. }
  split; [assumption |]. split.
  - assert (q < 2 ^ (d1 + s)).
    { rewrite Z.pow_add_r by lia. 
      assert (0 < 2 ^ 52) by reflexivity. nia. }
    assert (Zdigits2 q <= d1 + s).
    { apply digits_le; [| assumption]. assert (0 < 2 ^ 52) by reflexivity. lia. }
    lia.
  - rewrite Hq. apply new_location_located; lia.
Qed.

Lemma Qpower_2_cancel (s : Z) : (2 ^ s * 2 ^ (- s) == 1)%Q.
Proof.
  rewrite <- Qpower_plus by discriminate. now rewrite Z.add_opp_diag_r.
Qed.

Lemma SFdiv_normal (sa sb : bool) (pa pb : positive) :
  Zpos pa < 2 ^ 512 -> Zpos pb < 2 ^ 512 ->
  exists (m : positive) (e : Z),
    SFdiv prec emax (S754_finite sa pa 0) (S754_finite sb pb 0)
    = S754_finite (xorb sa sb) m e /\
    2 ^ 52 <= Zpos m < 2 ^ 53 /\ -565 <= e <= 460 /\
    (Qabs (inject_Z (Zpos m) * 2 ^ e - ratio (Zpos pa) (Zpos pb))
     <= u53 * ratio (Zpos pa) (Zpos pb))%Q.
Proof.
  intros Ha Hb.
  destruct (SFdiv_core_normal pa pb Ha Hb) as (q & s & l & E & Hs & Hq & Hd & Hloc).
  unfold SFdiv. rewrite E.
  destruct (binary_round_aux_normal (xorb sa sb) q (- s) l
              (Zpos pa * 2 ^ s) (Zpos pb))
    as (m & e & Hf & Hm & He & Herr); try assumption; try lia.
  exists m, e. split; [assumption |]. split; [assumption |]. split; [lia |].
  pose proof (round_error_Q (Zpos m) (Zpos pa * 2 ^ s) (Zpos pb) e (- s)
                eq_refl ltac:(lia) Herr) as HQ.
  assert (EX : (inject_Z (Zpos pa * 2 ^ s) / inject_Z (Zpos pb) * 2 ^ (- s)
                == ratio (Zpos pa) (Zpos pb))%Q).
  { unfold ratio. rewrite inject_Z_mult, Zpower_Qpower by lia.
    change (inject_Z 2) with 2%Q.
    pose proof (Qpower_2_cancel s) as Hc.
    unfold Qdiv.
    transitivity (inject_Z (Zpos pa) * / inject_Z (Zpos pb) * (2 ^ s * 2 ^ (- s)))%Q;
      [ring | rewrite Hc; ring]. }
  rewrite EX in HQ. exact HQ.
Qed.

Lemma to_Q_finite (s : bool) (m : positive) (e : Z) :
  (to_Q (S754_finite s m e)
   == (if s then - (inject_Z (Zpos m) * 2 ^ e) else inject_Z (Zpos m) * 2 ^ e))%Q.
Proof.
  unfold to_Q. destruct s; cbn [cond_Zopp].
  - change (- Zpos m) with (Z.opp (Zpos m)). rewrite inject_Z_opp. ring.
  - reflexivity.
Qed.

Lemma ratio_pos (a b : Z) : 0 < a -> 0 < b -> (0 < ratio a b)%Q.
Proof.
  intros Ha Hb. unfold ratio. apply Qlt_shift_div_l.
  - change 0%Q with (inject_Z 0). now rewrite <- Zlt_Qlt.
  - rewrite Qmult_0_l. change 0%Q with (inject_Z 0). now rewrite <- Zlt_Qlt.
Qed.

Lemma ratio_opp_l (a b : Z) : (ratio (- a) b == - ratio a b)%Q.
Proof. unfold ratio. rewrite inject_Z_opp. unfold Qdiv. ring. Qed.

Lemma ratio_opp_r (a b : Z) : (ratio a (- b) == - ratio a b)%Q.
Proof.
  unfold ratio. rewrite inject_Z_opp.
  destruct (Z.eq_dec b 0) as [-> | Hb].
  { unfold Qdiv. change (/ - inject_Z 0)%Q with 0%Q.
    change (/ inject_Z 0)%Q with 0%Q. ring. }
  field. intros E. apply Hb.
  change 0%Q with (inject_Z 0) in E. rewrite inject_Z_injective in E. exact E.
Qed.

Lemma near_signed (s : bool) (m : positive) (e : Z) (x : Q) :
  (0 < x)%Q ->
  (Qabs (inject_Z (Zpos m) * 2 ^ e - x) <= u53 * x)%Q ->
  near (S754_finite s m e) (if s then - x else x)%Q.
Proof.
  intros Hx H. unfold near. rewrite to_Q_finite. destruct s.
  - setoid_replace (- (inject_Z (Zpos m) * 2 ^ e) - - x)%Q
      with (- (inject_Z (Zpos m) * 2 ^ e - x))%Q by ring.
    rewrite !Qabs_opp, (Qabs_pos x) by lra. exact H.
  - rewrite (Qabs_pos x) by lra. exact H.
Qed.

Lemma int_operand_cases (z : Z) :
  z <> 0 ->
  exists (s : bool) (p : positive),
    int_operand z = S754_finite s p 0 /\ z = cond_Zopp s (Zpos p) /\
    Zpos p = Z.abs z.
Proof.
  destruct z as [| p | p]; intros H; [congruence | |].
  - exists false, p. repeat split.
  - exists true, p. repeat split.
Qed.

Lemma ratio_signed (sa sb : bool) (pa pb : positive) :
  (ratio (cond_Zopp sa (Zpos pa)) (cond_Zopp sb (Zpos pb))
   == if xorb sa sb then - ratio (Zpos pa) (Zpos pb)
      else ratio (Zpos pa) (Zpos pb))%Q.
Proof.
  destruct sa, sb; cbn [cond_Zopp xorb];
    rewrite ?ratio_opp_l, ?ratio_opp_r; try reflexivity; ring.
Qed.

(** True division of ints of moderate size: no exception, a normal
    float (or a zero), within a relative error of [2^-53] of the exact
    quotient. *)
Lemma int_truediv_correct (a b : Z) :
  b <> 0 -> Z.abs a < 2 ^ 512 -> Z.abs b < 2 ^ 512 ->
  exists f : float,
    int_truediv a b = Ok f /\ normal_or_zero f /\ near f (ratio a b).
Proof.
  intros Hb Ha Hb'. unfold int_truediv.
  destruct (Z.eqb_spec b 0) as [| _]; [contradiction |].
  destruct (int_operand_cases b Hb) as (sb & pb & Eb & Vb & Ab).
  rewrite Eb.
  destruct (Z.eq_dec a 0) as [-> | Ha0].
  - exists (S754_zero (xorb false sb)). cbn [int_operand SFdiv].
    split; [reflexivity |]. split; [exact I |].
    unfold near, ratio. cbn [to_Q].
    setoid_replace (inject_Z 0 / inject_Z b)%Q with 0%Q
      by (unfold Qdiv; change (inject_Z 0) with 0%Q; ring).
    cbn. unfold Qle; cbn. lia.
  - destruct (int_operand_cases a Ha0) as (sa & pa & Ea & Va & Aa).
    rewrite Ea.
    destruct (SFdiv_normal sa sb pa pb) as (m & e & Hf & Hm & He & Herr);
      [lia | lia |].
    rewrite Hf. exists (S754_finite (xorb sa sb) m e).
    split; [reflexivity |]. split; [cbn; lia |].
    unfold near. rewrite Va, Vb, ratio_signed.
    apply near_signed; [| exact Herr].
    apply ratio_pos; reflexivity.
Qed.

Lemma float_of_int_100 :
  float_of_int 100 = Ok (S754_finite false 7036874417766400 (-46)).
Proof. reflexivity. Qed.

(** Multiplication of a normal float by the int 100. *)
Lemma float_mul_100_correct (f : float) :
  normal_or_zero f ->
  exists g : float,
    float_mul_int f 100 = Ok g /\ is_finite g = true /\
    near g (to_Q f * 100)%Q.
Proof.
  intros Hf. unfold float_mul_int. rewrite float_of_int_100. cbn [bind].
  destruct f as [s | s | | s m e]; cbn [normal_or_zero] in Hf; try contradiction.
  - exists (S754_zero (xorb s false)). cbn [SFmul]. split; [reflexivity |].
    split; [reflexivity |]. unfold near. cbn [to_Q].
    discriminate.
  - destruct Hf as [Hm He]. cbn [SFmul].
    change (2 ^ 52) with 4503599627370496 in Hm.
    change (2 ^ 53) with 9007199254740992 in Hm.
    set (mx := Zpos (m * 7036874417766400)).
    assert (Emx : mx = Zpos m * 7036874417766400) by reflexivity.
    assert (Hd : Zdigits2 mx <= 106).
    { apply digits_le; [reflexivity |].
      change (2 ^ 106) with (9007199254740992 * 9007199254740992). lia. }
    destruct (binary_round_aux_normal (xorb s false) mx (e + -46) loc_Exact mx 1)
      as (m' & e' & Hg & Hm' & He' & Herr); try lia.
    { unfold located. cbn [shr_record_of_loc shr_m shr_r shr_s]. lia. }
    rewrite Hg. exists (S754_finite (xorb s false) m' e').
    split; [reflexivity |]. split; [reflexivity |].
    pose proof (round_error_Q (Zpos m') mx 1 e' (e + -46)
                  eq_refl ltac:(lia) Herr) as HQ.
    assert (EX : (inject_Z mx / inject_Z 1 * 2 ^ (e + -46)
                  == inject_Z (Zpos m) * 2 ^ e * 100)%Q).
    { rewrite Emx, inject_Z_mult, Qpower_plus by discriminate.
      assert (Ec : (inject_Z 7036874417766400 * 2 ^ (-46) == 100)%Q) by reflexivity.
      transitivity (inject_Z (Zpos m) * 2 ^ e
                    * (inject_Z 7036874417766400 * 2 ^ (-46)))%Q.
      - change (inject_Z 1) with 1%Q. field.
      - rewrite Ec. reflexivity. }
    rewrite EX in HQ.
    rewrite xorb_false_r. unfold near.
    assert (Hpos : (0 < inject_Z (Zpos m) * 2 ^ e * 100)%Q).
    { assert (0 < 2 ^ e)%Q by (apply Qpower_0_lt; reflexivity).
      assert (0 < inject_Z (Zpos m))%Q
        by (change 0%Q with (inject_Z 0); rewrite <- Zlt_Qlt; reflexivity).
      assert (0 < inject_Z (Zpos m) * 2 ^ e)%Q by (apply Qmult_lt_0_compat; assumption).
      lra. }
    pose proof (near_signed s m' e' _ Hpos HQ) as Hn. unfold near in Hn.
    rewrite (to_Q_finite s m e).
    destruct s.
    + setoid_replace (- (inject_Z (Zpos m) * 2 ^ e) * 100)%Q
        with (- (inject_Z (Zpos m) * 2 ^ e * 100))%Q by ring.
      exact Hn.
    + exact Hn.
Qed.

Lemma Qabs_elim (x : Q) : (Qabs x == x /\ 0 <= x)%Q \/ (Qabs x == - x /\ x <= 0)%Q.
Proof.
  destruct (Qlt_le_dec x 0) as [H | H].
  - right. split; [apply Qabs_neg; lra | lra].
  - left. split; [now apply Qabs_pos | assumption].
Qed.

Lemma near_percent (f g : float) (r : Q) :
  near f r -> near g (to_Q f * 100)%Q ->
  (Qabs (to_Q g - r * 100) <= eps * Qabs (r * 100))%Q.
Proof.
  unfold near, u53, eps. intros Hf Hg.
  set (F := to_Q f) in *. set (G := to_Q g) in *.
  apply Qabs_Qle_condition in Hf, Hg. apply Qabs_Qle_condition.
  destruct (Qabs_elim r) as [[Er Sr] | [Er Sr]];
    destruct (Qabs_elim (F * 100)) as [[EF SF] | [EF SF]];
    destruct (Qabs_elim (r * 100)) as [[Ep Sp] | [Ep Sp]];
    rewrite Er in Hf; rewrite EF in Hg; rewrite Ep; lra.
Qed.

Lemma percent_correct (a b : Z) :
  b <> 0 -> Z.abs a < 2 ^ 512 -> Z.abs b < 2 ^ 512 ->
  exists g : float,
    (x <- int_truediv a b ;; float_mul_int x 100) = Ok g /\
    is_finite g = true /\
    (Qabs (to_Q g - ratio a b * 100) <= eps * Qabs (ratio a b * 100))%Q.
Proof.
  intros Hb Ha Hb'.
  destruct (int_truediv_correct a b Hb Ha Hb') as (f & Ef & Nf & Hf).
  destruct (float_mul_100_correct f Nf) as (g & Eg & Fg & Hg).
  exists g. rewrite Ef. cbn [bind]. split; [assumption |]. split; [assumption |].
  now apply near_percent with f.
Qed.

Lemma located_floor (mrs : shr_record) (N D : Z) :
  0 < D -> located mrs N D ->
  shr_m mrs * D <= N < shr_m mrs * D + D.
Proof.
  destruct mrs as [m r s]. unfold located. cbn [shr_m shr_r shr_s].
  intros HD H. destruct r, s; lia.
Qed.

Lemma located_unique (mrs mrs' : shr_record) (N D N' D' : Z) :
  0 < D -> 0 < D' ->
  located mrs N D -> located mrs' N' D' ->
  N * D' = N' * D ->
  mrs = mrs'.
Proof.
  intros HD HD' H H' E.
  pose proof (located_floor mrs N D HD H) as F.
  pose proof (located_floor mrs' N' D' HD' H') as F'.
  destruct mrs as [m r s], mrs' as [m' r' s'].
  unfold located in H, H'. cbn [shr_m shr_r shr_s] in *.
  assert (Em : m = m').
  { assert (m * D * D' <= N * D') by nia.
    assert (N * D' < (m * D + D) * D') by nia.
    assert (m' * D' * D <= N' * D) by nia.
    assert (N' * D < (m' * D' + D') * D) by nia.
    assert (0 < D * D') by nia.
    assert ((m - m' - 1) * (D * D') < 0) by nia.
    assert ((m' - m - 1) * (D * D') < 0) by nia.
    nia. }
  subst m'.
  set (X := 2 * N - 2 * (m * D)) in *.
  set (X' := 2 * N' - 2 * (m * D')) in *.
  assert (EX : X * D' = X' * D) by (subst X X'; nia).
  assert (HX : (X = 0 <-> X' = 0) /\ (X < D <-> X' < D') /\ (X = D <-> X' = D')).
  { repeat split; intros; nia. }
  destruct r, s, r', s'; try reflexivity; exfalso; subst X X'; lia.
Qed.

Lemma exponent_unique_lt (N D N' D' a b : Z) :
  0 < D -> 0 < D' ->
  2 ^ 52 * D <= N < 2 ^ 53 * D ->
  2 ^ 52 * D' <= N' < 2 ^ 53 * D' ->
  0 <= a < b ->
  N * D' * 2 ^ a <> N' * D * 2 ^ b.
Proof.
  intros HD HD' HN HN' Hab E.
  change (2 ^ 52) with 4503599627370496 in *.
  change (2 ^ 53) with 9007199254740992 in *.
  replace b with (a + (b - a)) in E by lia.
  rewrite Z.pow_add_r in E by lia.
  assert (Ha : 0 < 2 ^ a) by (apply Z.pow_pos_nonneg; lia).
  assert (Hd : 2 <= 2 ^ (b - a)).
  { change 2 with (2 ^ 1) at 1. apply Z.pow_le_mono_r; lia. }
  assert (E' : N * D' = N' * D * 2 ^ (b - a)).
  { apply (Z.mul_cancel_r _ _ (2 ^ a)); [lia |]. rewrite E. ring. }
  assert (0 < D * D') by nia.
  assert (N * D' < 9007199254740992 * (D * D')) by nia.
  assert (4503599627370496 * (D * D') <= N' * D) by nia.
  assert (2 * (N' * D) <= N' * D * 2 ^ (b - a)) by nia.
  lia.
Qed.

Lemma exponent_unique (N D N' D' a b : Z) :
  0 < D -> 0 < D' ->
  2 ^ 52 * D <= N < 2 ^ 53 * D ->
  2 ^ 52 * D' <= N' < 2 ^ 53 * D' ->
  0 <= a -> 0 <= b ->
  N * D' * 2 ^ a = N' * D * 2 ^ b ->
  a = b.
Proof.
  intros HD HD' HN HN' Ha Hb E.
  destruct (Z.lt_trichotomy a b) as [Hlt | [Heq | Hgt]]; [| assumption |].
  - exfalso. now apply (exponent_unique_lt N D N' D' a b).
  - exfalso. apply (exponent_unique_lt N' D' N D b a); try assumption; lia.
Qed.

(** The rounded result depends only on the rational being rounded. *)
Lemma binary_round_aux_unique (s : bool)
      (mx ex : Z) (lx : location) (N D : Z)
      (mx' ex' : Z) (lx' : location) (N' D' : Z) :
  0 < D -> 2 ^ 52 <= mx -> -1074 <= ex ->
  located (shr_record_of_loc mx lx) N D ->
  0 < D' -> 2 ^ 52 <= mx' -> -1074 <= ex' ->
  located (shr_record_of_loc mx' lx') N' D' ->
  N * D' * 2 ^ (ex + 1074) = N' * D * 2 ^ (ex' + 1074) ->
  binary_round_aux prec emax s mx ex lx
  = binary_round_aux prec emax s mx' ex' lx'.
Proof.
  intros HD Hmx Hex Hloc HD' Hmx' Hex' Hloc' E.
  destruct (shr_fexp_normal mx ex lx N D HD Hmx Hex Hloc)
    as (Hn & He1 & Hloc1 & Hm1).
  destruct (shr_fexp_normal mx' ex' lx' N' D' HD' Hmx' Hex' Hloc')
    as (Hn' & He1' & Hloc1' & Hm1').
  rewrite !binary_round_aux_finish.
  set (n := Zdigits2 mx - 53) in *. set (n' := Zdigits2 mx' - 53) in *.
  set (r := shr_fexp prec emax mx ex lx) in *.
  set (r' := shr_fexp prec emax mx' ex' lx') in *.
  assert (Hp : 0 < 2 ^ n) by (apply Z.pow_pos_nonneg; lia).
  assert (Hp' : 0 < 2 ^ n') by (apply Z.pow_pos_nonneg; lia).
  assert (HD1 : 0 < 2 ^ n * D) by nia.
  assert (HD1' : 0 < 2 ^ n' * D') by nia.
  pose proof (located_floor _ _ _ HD1 Hloc1) as F.
  pose proof (located_floor _ _ _ HD1' Hloc1') as F'.
  assert (E1 : N * (2 ^ n' * D') * 2 ^ (ex + n + 1074)
               = N' * (2 ^ n * D) * 2 ^ (ex' + n' + 1074)).
  { replace (ex + n + 1074) with (ex + 1074 + n) by lia.
    replace (ex' + n' + 1074) with (ex' + 1074 + n') by lia.
    set (a := ex + 1074) in *. set (a' := ex' + 1074) in *.
    rewrite !Z.pow_add_r by lia.
    transitivity (N * D' * 2 ^ a * (2 ^ n * 2 ^ n')); [ring |].
    rewrite E. ring. }
  assert (Ee : ex + n + 1074 = ex' + n' + 1074).
  { apply (exponent_unique N (2 ^ n * D) N' (2 ^ n' * D')); try assumption; try lia.
    - change (2 ^ 52) with 4503599627370496 in *.
      change (2 ^ 53) with 9007199254740992 in *. nia.
    - change (2 ^ 52) with 4503599627370496 in *.
      change (2 ^ 53) with 9007199254740992 in *. nia. }
  assert (Er : fst r = fst r').
  { apply (located_unique _ _ N (2 ^ n * D) N' (2 ^ n' * D')); try assumption.
    rewrite Ee in E1.
    apply (Z.mul_cancel_r _ _ (2 ^ (ex' + n' + 1074))); [| exact E1].
    apply Z.pow_nonzero; lia. }
  rewrite Er, He1, He1'. f_equal. lia.
Qed.

Lemma SFdiv_same_ratio (sa sb sa' sb' : bool) (pa pb pa' pb' : positive) :
  Zpos pa < 2 ^ 512 -> Zpos pb < 2 ^ 512 ->
  Zpos pa' < 2 ^ 512 -> Zpos pb' < 2 ^ 512 ->
  xorb sa sb = xorb sa' sb' ->
  Zpos pa * Zpos pb' = Zpos pa' * Zpos pb ->
  SFdiv prec emax (S754_finite sa pa 0) (S754_finite sb pb 0)
  = SFdiv prec emax (S754_finite sa' pa' 0) (S754_finite sb' pb' 0).
Proof.
  intros Ha Hb Ha' Hb' Es Er.
  destruct (SFdiv_core_normal pa pb Ha Hb) as (q & s & l & E & Hs & Hq & _ & Hloc).
  destruct (SFdiv_core_normal pa' pb' Ha' Hb')
    as (q' & s' & l' & E' & Hs' & Hq' & _ & Hloc').
  unfold SFdiv. rewrite E, E', Es.
  apply (binary_round_aux_unique _ q (- s) l (Zpos pa * 2 ^ s) (Zpos pb)
           q' (- s') l' (Zpos pa' * 2 ^ s') (Zpos pb'));
    try assumption; try lia.
  replace 1074 with (s + (1074 - s)) at 1 by lia.
  replace 1074 with (s' + (1074 - s')) at 2 by lia.
  replace (- s + (s + (1074 - s))) with (1074 - s) by lia.
  replace (- s' + (s' + (1074 - s'))) with (1074 - s') by lia.
  transitivity (Zpos pa * Zpos pb' * (2 ^ s * 2 ^ (1074 - s))); [ring |].
  transitivity (Zpos pa' * Zpos pb * (2 ^ s' * 2 ^ (1074 - s'))); [| ring].
  rewrite <- !Z.pow_add_r by lia.
  replace (s + (1074 - s)) with 1074 by lia.
  replace (s' + (1074 - s')) with 1074 by lia.
  now rewrite Er.
Qed.

Lemma int_operand_scale (n z : Z) :
  0 < n -> z <> 0 ->
  exists (s : bool) (p p' : positive),
    int_operand z = S754_finite s p 0 /\
    int_operand (n * z) = S754_finite s p' 0 /\
    Zpos p' = n * Zpos p /\ Zpos p = Z.abs z.
Proof.
  intros Hn Hz. destruct n as [| pn | pn]; try lia.
  destruct z as [| p | p]; [congruence | |].
  - exists false, p, (pn * p)%positive. repeat split.
  - exists true, p, (pn * p)%positive. repeat split.
Qed.

(** A common positive factor of the two ints does not change the
    float their true division returns. *)
Lemma int_truediv_scale (n x d : Z) :
  0 < n -> Z.abs (n * x) < 2 ^ 512 -> Z.abs (n * d) < 2 ^ 512 ->
  int_truediv (n * x) (n * d) = int_truediv x d.
Proof.
  intros Hn Hx Hd. unfold int_truediv.
  destruct (Z.eqb_spec d 0) as [-> | Hd0].
  - now rewrite Z.mul_0_r.
  - destruct (Z.eqb_spec (n * d) 0) as [E0 | _]; [nia |].
    destruct (int_operand_scale n d Hn Hd0) as (sd & pd & pd' & Ed & Ed' & Vd & Ad).
    rewrite Ed, Ed'.
    destruct (Z.eq_dec x 0) as [-> | Hx0].
    + rewrite Z.mul_0_r. reflexivity.
    + destruct (int_operand_scale n x Hn Hx0) as (sx & px & px' & Ex & Ex' & Vx & Ax).
      rewrite Ex, Ex'.
      rewrite (SFdiv_same_ratio sx sd sx sd px' pd' px pd); try reflexivity.
      * rewrite Vx, Ax, <- (Z.abs_eq n), <- Z.abs_mul by lia. assumption.
      * rewrite Vd, Ad, <- (Z.abs_eq n), <- Z.abs_mul by lia. assumption.
      * rewrite Ax. rewrite Z.abs_mul, (Z.abs_eq n) in Hx by lia. nia.
      * rewrite Ad. rewrite Z.abs_mul, (Z.abs_eq n) in Hd by lia. nia.
      * rewrite Vx, Vd. ring.
Qed.

End Rounding.

(** ** The yearly table, column by column *)

Section Table.
Variable i : Inputs.

Lemma years_length : length (years i) = Z.to_nat (resale_year i).
Proof.
  unfold years. rewrite range_length. f_equal. lia.
Qed.

Lemma years_nth (k : nat) :
  (k < Z.to_nat (resale_year i))%nat ->
  nth_error (years i) k = Some (Z.of_nat k + 1).
Proof.
  intros Hk. unfold years. rewrite range_nth.
  - f_equal. lia.
  - replace (resale_year i + 1 - 1) with (resale_year i) by lia. exact Hk.
Qed.

Lemma years_In (y : Z) : In y (years i) <-> 1 <= y <= resale_year i.
Proof. unfold years. rewrite range_In. lia. Qed.

Lemma cumulative_costs_at :
  cumulative_costs i = map (cumulative_cost_at i) (years i).
Proof. reflexivity. Qed.

Lemma revenue_at_years : revenue i = map (revenue_at i) (years i).
Proof. reflexivity. Qed.

(** Line 60: the index-by-index difference of the two columns. *)
Lemma profit_closed :
  profit i
  = Ok (map (fun y => revenue_at i y - cumulative_cost_at i y) (years i)).
Proof.
  unfold profit.
  replace (len (years i)) with (len (revenue i))
    by (unfold len; now rewrite revenue_at_years, length_map).
  rewrite mapM_index
    by now rewrite revenue_at_years, cumulative_costs_at, !length_map.
  rewrite revenue_at_years, cumulative_costs_at, combine_map_same, mapM_map.
  cbn [fst snd]. apply mapM_Ok.
Qed.

(** Line 61: one division and one multiplication per year. *)
Lemma roi_over_time_closed :
  roi_over_time i
  = mapM (fun y =>
            x <- int_truediv (revenue_at i y - cumulative_cost_at i y)
                             (cumulative_cost_at i y) ;;
            float_mul_int x 100)
         (years i).
Proof.
  unfold roi_over_time. rewrite profit_closed. cbn [bind].
  set (p := map (fun y => revenue_at i y - cumulative_cost_at i y) (years i)).
  replace (len (years i)) with (len p)
    by (unfold len, p; now rewrite length_map).
  rewrite mapM_index
    by (unfold p; now rewrite cumulative_costs_at, !length_map).
  unfold p. rewrite cumulative_costs_at, combine_map_same, mapM_map.
  reflexivity.
Qed.

End Table.

(** Rows assembled from a year column and a ROI column. *)
Lemma rows_of_columns (i : Inputs) (l : list Z) :
  mapM (row_at i) l
  = (rs <- mapM (fun y =>
                   x <- int_truediv (revenue_at i y - cumulative_cost_at i y)
                                    (cumulative_cost_at i y) ;;
                   float_mul_int x 100) l ;;
     Ok (rows {| Year := l;
                 Cumulative_Cost := map (cumulative_cost_at i) l;
                 Projected_Revenue := map (revenue_at i) l;
                 Net_Profit :=
                   map (fun y => revenue_at i y - cumulative_cost_at i y) l;
                 ROI := rs |})).
Proof.
  induction l as [| y l IH]; [reflexivity |].
  cbn [mapM]. rewrite IH. clear IH. unfold row_at at 1.
  destruct (int_truediv (revenue_at i y - cumulative_cost_at i y)
                        (cumulative_cost_at i y)) as [x |]; [| reflexivity].
  cbn [bind].
  destruct (float_mul_int x 100) as [r |]; [| reflexivity].
  cbn [bind].
  match goal with
  | |- context [mapM ?F l] => destruct (mapM F l) as [rs |]; reflexivity
  end.
Qed.

(** The table the script builds is the list of the rows [row_at]. *)
Lemma df_rows (i : Inputs) :
  (d <- df i ;; Ok (rows d)) = mapM (row_at i) (years i).
Proof.
  unfold df. rewrite profit_closed, roi_over_time_closed, rows_of_columns.
  cbn [bind]. destruct (mapM _ (years i)); reflexivity.
Qed.

Lemma row_at_fields (i : Inputs) (y : Z) (r : Row) :
  row_at i y = Ok r ->
  r_year r = y /\
  r_cumulative_cost r = cumulative_cost_at i y /\
  r_revenue r = revenue_at i y /\
  r_net_profit r = revenue_at i y - cumulative_cost_at i y /\
  (x <- int_truediv (r_net_profit r) (r_cumulative_cost r) ;;
   float_mul_int x 100) = Ok (r_roi r).
Proof.
  unfold row_at. intros H.
  destruct (int_truediv _ _) as [x |] eqn:Ex; [| discriminate].
  cbn [bind] in H.
  destruct (float_mul_int x 100) as [g |] eqn:Eg; [| discriminate].
  cbn [bind] in H. injection H as <-.
  cbn [r_year r_cumulative_cost r_revenue r_net_profit r_roi].
  rewrite Ex. cbn [bind]. auto.
Qed.

Lemma mapM_nth {A B} (f : A -> result B) (l : list A) (bs : list B) :
  mapM f l = Ok bs ->
  forall (k : nat) (b : B),
    nth_error bs k = Some b ->
    exists a : A, nth_error l k = Some a /\ f a = Ok b.
Proof.
  revert bs. induction l as [| a l IH]; intros bs H k b Hk.
  - injection H as <-. destruct k; discriminate.
  - cbn [mapM] in H. destruct (f a) as [b0 |] eqn:Ea; [| discriminate].
    cbn [bind] in H. destruct (mapM f l) as [bs0 |]; [| discriminate].
    injection H as <-. destruct k as [| k].
    + injection Hk as <-. exists a. now split.
    + cbn [nth_error] in Hk |- *. now apply (IH bs0).
Qed.

Lemma mapM_total {A B} (f : A -> result B) (l : list A) :
  (forall a, In a l -> exists b, f a = Ok b) ->
  exists bs : list B, mapM f l = Ok bs.
Proof.
  induction l as [| a l IH]; intros H.
  - now exists [].
  - destruct (H a (or_introl eq_refl)) as [b Hb].
    destruct IH as [bs Hbs]; [intros; apply H; now right |].
    exists (b :: bs). cbn [mapM]. now rewrite Hb, Hbs.
Qed.

(** ** Sizes under valid, moderate inputs *)

Lemma total_cost_factor (i : Inputs) :
  total_cost i
  = num_businesses i * (purchase_price i + annual_cost i * resale_year i).
Proof.
  unfold total_cost, initial_investment, total_annual_cost, total_years. ring.
Qed.

Lemma net_profit_factor (i : Inputs) :
  net_profit i
  = num_businesses i
    * (resale_value i - (purchase_price i + annual_cost i * resale_year i)).
Proof.
  unfold net_profit, total_revenue. rewrite total_cost_factor. ring.
Qed.

Lemma cumulative_cost_last (i : Inputs) :
  cumulative_cost_at i (resale_year i) = total_cost i.
Proof.
  unfold cumulative_cost_at, total_cost, total_annual_cost, total_years. ring.
Qed.

Lemma widget_valid (i : Inputs) : widget_inputs i -> valid_inputs i.
Proof.
  unfold widget_inputs, valid_inputs. cbn [In].
  intros (Hn & Hp & Ha & Hv & Hy). repeat split; lia.
Qed.

Lemma widget_moderate (i : Inputs) : widget_inputs i -> moderate i.
Proof.
  unfold widget_inputs, moderate, total_cost, total_revenue,
    initial_investment, total_annual_cost, total_years. cbn [In].
  intros (Hn & Hp & Ha & Hv & Hy).
  assert (Hn' : 0 < num_businesses i <= 200) by lia.
  assert (Hp' : 0 < purchase_price i <= 199) by lia.
  assert (annual_cost i * resale_year i <= 100 * 20) by nia.
  assert (annual_cost i * resale_year i * num_businesses i <= 2000 * 200) by nia.
  assert (num_businesses i * purchase_price i <= 200 * 199) by nia.
  assert (resale_value i * num_businesses i <= 100000 * 200) by nia.
  assert (Hbig : 20000000 < 2 ^ 512) by reflexivity.
  split; lia.
Qed.

Section Sizes.
Variable i : Inputs.
Hypothesis Hv : valid_inputs i.
Hypothesis Hm : moderate i.

Lemma unit_cost_pos :
  0 < purchase_price i + annual_cost i * resale_year i.
Proof. destruct Hv as (? & ? & ? & ? & ?). nia. Qed.

Lemma total_cost_pos : 0 < total_cost i.
Proof.
  rewrite total_cost_factor. pose proof unit_cost_pos.
  destruct Hv as (? & _). nia.
Qed.

Lemma total_revenue_pos : 0 < total_revenue i.
Proof. unfold total_revenue. destruct Hv as (? & ? & ? & ? & ?). nia. Qed.

Lemma net_profit_small : Z.abs (net_profit i) < 2 ^ 512.
Proof.
  pose proof total_cost_pos. pose proof total_revenue_pos.
  destruct Hm. unfold net_profit. lia.
Qed.

Lemma unit_cost_small :
  purchase_price i + annual_cost i * resale_year i <= total_cost i.
Proof.
  rewrite total_cost_factor. pose proof unit_cost_pos.
  destruct Hv as (? & _). nia.
Qed.

Lemma resale_value_small : resale_value i <= total_revenue i.
Proof. unfold total_revenue. destruct Hv as (? & ? & ? & ? & ?). nia. Qed.

Lemma cumulative_cost_bounds (y : Z) :
  1 <= y <= resale_year i ->
  0 < cumulative_cost_at i y <= total_cost i.
Proof.
  intros Hy. rewrite <- cumulative_cost_last. unfold cumulative_cost_at, initial_investment.
  destruct Hv as (? & ? & ? & ? & ?).
  assert (0 < annual_cost i * num_businesses i) by nia.
  assert (0 < num_businesses i * purchase_price i) by nia.
  split; nia.
Qed.

Lemma revenue_at_bounds (y : Z) : 0 <= revenue_at i y <= total_revenue i.
Proof.
  pose proof total_revenue_pos. unfold revenue_at.
  destruct (y <? resale_year i); lia.
Qed.

(** Line 37 *)
Lemma roi_correct :
  exists g : float,
    roi i = Ok g /\ is_finite g = true /\
    (Qabs (to_Q g - roi_exact i) <= eps * Qabs (roi_exact i))%Q.
Proof.
  pose proof total_cost_pos. pose proof net_profit_small. destruct Hm.
  apply Rounding.percent_correct; lia.
Qed.

(** Line 38 *)
Lemma roi_per_business_correct :
  exists g : float,
    roi_per_business i = Ok g /\ is_finite g = true /\
    (Qabs (to_Q g - roi_per_business_exact i)
     <= eps * Qabs (roi_per_business_exact i))%Q.
Proof.
  pose proof unit_cost_pos. pose proof unit_cost_small.
  pose proof resale_value_small. destruct Hm.
  destruct Hv as (? & ? & ? & ? & ?).
  apply Rounding.percent_correct; lia.
Qed.

(** Line 61, one year *)
Lemma row_at_correct (y : Z) :
  1 <= y <= resale_year i ->
  exists r : Row,
    row_at i y = Ok r /\ is_finite (r_roi r) = true /\
    (Qabs (to_Q (r_roi r)
           - ratio (r_net_profit r) (r_cumulative_cost r) * 100)
     <= eps * Qabs (ratio (r_net_profit r) (r_cumulative_cost r) * 100))%Q.
Proof.
  intros Hy. pose proof (cumulative_cost_bounds y Hy).
  pose proof (revenue_at_bounds y). destruct Hm.
  destruct (Rounding.percent_correct
              (revenue_at i y - cumulative_cost_at i y)
              (cumulative_cost_at i y)) as (g & Eg & Fg & Hg); try lia.
  unfold row_at.
  destruct (int_truediv _ _) as [x |]; [| discriminate].
  cbn [bind] in Eg |- *. rewrite Eg. cbn [bind].
  eexists. split; [reflexivity |].
  cbn [r_roi r_net_profit r_cumulative_cost]. now split.
Qed.

(** The whole script runs to completion. *)
Lemma script_completes :
  exists (g g' : float) (d : DataFrame),
    roi i = Ok g /\ roi_per_business i = Ok g' /\ df i = Ok d /\
    script i
    = Completed {| s_initial_investment := initial_investment i;
                   s_total_annual_cost := total_annual_cost i;
                   s_total_cost := total_cost i;
                   s_total_revenue := total_revenue i;
                   s_net_profit := net_profit i;
                   s_roi := g;
                   s_roi_per_business := g' |} d /\
    mapM (row_at i) (years i) = Ok (rows d).
Proof.
  destruct roi_correct as (g & Eg & _).
  destruct roi_per_business_correct as (g' & Eg' & _).
  destruct (mapM_total (row_at i) (years i)) as (rs & Ers).
  { intros y Hy. apply years_In in Hy.
    destruct (row_at_correct y Hy) as (r & Er & _). now exists r. }
  pose proof (df_rows i) as Hdf. rewrite Ers in Hdf.
  destruct (df i) as [d |] eqn:Ed; [| discriminate].
  cbn [bind] in Hdf. injection Hdf as Hrows.
  exists g, g', d. unfold script, summary. rewrite Eg, Eg'. cbn [bind].
  rewrite Ed. repeat split; try reflexivity. now rewrite Hrows.
Qed.

End Sizes.

(** ** Rows of a completed table *)

Lemma table_rows (i : Inputs) (rs : list Row) :
  mapM (row_at i) (years i) = Ok rs ->
  length rs = Z.to_nat (resale_year i) /\
  forall (k : nat) (r : Row),
    nth_error rs k = Some r ->
    (k < Z.to_nat (resale_year i))%nat /\ row_at i (Z.of_nat k + 1) = Ok r.
Proof.
  intros H.
  assert (Hlen : length rs = Z.to_nat (resale_year i))
    by (rewrite (mapM_length _ _ _ H); apply years_length).
  split; [assumption |]. intros k r Hk.
  assert (Hlt : (k < Z.to_nat (resale_year i))%nat).
  { rewrite <- Hlen. apply nth_error_Some. congruence. }
  split; [assumption |].
  destruct (mapM_nth _ _ _ H k r Hk) as (y & Hy & Hr).
  rewrite years_nth in Hy by assumption. now injection Hy as <-.
Qed.

Lemma table_row_of_year (i : Inputs) (rs : list Row) (y : Z) :
  mapM (row_at i) (years i) = Ok rs ->
  1 <= y <= resale_year i ->
  exists r : Row,
    nth_error rs (Z.to_nat (y - 1)) = Some r /\ row_at i y = Ok r.
Proof.
  intros H Hy. destruct (table_rows i rs H) as [Hlen Hrows].
  destruct (nth_error rs (Z.to_nat (y - 1))) as [r |] eqn:E.
  - exists r. split; [reflexivity |].
    destruct (Hrows _ _ E) as [_ Hr].
    now replace (Z.of_nat (Z.to_nat (y - 1)) + 1) with y in Hr by lia.
  - apply nth_error_None in E. lia.
Qed.

Lemma table_last_row (i : Inputs) (rs : list Row) :
  0 < resale_year i ->
  mapM (row_at i) (years i) = Ok rs ->
  exists (init : list Row) (r : Row),
    rs = init ++ [r] /\ row_at i (resale_year i) = Ok r.
Proof.
  intros Hy H. destruct (table_rows i rs H) as [Hlen Hrows].
  destruct (exists_last (l := rs)) as (init & r & E).
  { intros ->. cbn in Hlen. lia. }
  exists init, r. split; [assumption |].
  assert (Hk : nth_error rs (length init) = Some r).
  { rewrite E, nth_error_app2, Nat.sub_diag by lia. reflexivity. }
  destruct (Hrows _ _ Hk) as [_ Hr].
  assert (Hl : length rs = (length init + 1)%nat)
    by (rewrite E, length_app; reflexivity).
  now replace (Z.of_nat (length init) + 1) with (resale_year i) in Hr by lia.
Qed.

Lemma revenue_at_last (i : Inputs) :
  revenue_at i (resale_year i) = total_revenue i.
Proof. unfold revenue_at. now rewrite Z.ltb_irrefl. Qed.

Lemma revenue_at_before (i : Inputs) (y : Z) :
  y < resale_year i -> revenue_at i y = 0.
Proof.
  intros H. unfold revenue_at.
  destruct (Z.ltb_spec y (resale_year i)); [reflexivity | lia].
Qed.

(** What a completed run has rendered. *)
Lemma script_completed_inv (i : Inputs) (s : Summary) (d : DataFrame) :
  script i = Completed s d ->
  s_initial_investment s = initial_investment i /\
  s_total_annual_cost s = total_annual_cost i /\
  s_total_cost s = total_cost i /\
  s_total_revenue s = total_revenue i /\
  s_net_profit s = net_profit i /\
  roi i = Ok (s_roi s) /\
  roi_per_business i = Ok (s_roi_per_business s) /\
  mapM (row_at i) (years i) = Ok (rows d).
Proof.
  unfold script, summary. intros H.
  destruct (roi i) as [g |]; [| discriminate]. cbn [bind] in H.
  destruct (roi_per_business i) as [g' |]; [| discriminate]. cbn [bind] in H.
  pose proof (df_rows i) as Hdf.
  destruct (df i) as [d0 |]; [| discriminate].
  injection H as <- <-. cbn [bind] in Hdf.
  cbn [s_initial_investment s_total_annual_cost s_total_cost
       s_total_revenue s_net_profit s_roi s_roi_per_business].
  repeat split; reflexivity || (symmetry; exact Hdf).
Qed.

Lemma script_completes_ex (i : Inputs) :
  valid_inputs i -> moderate i ->
  exists (s : Summary) (d : DataFrame), script i = Completed s d.
Proof.
  intros Hv Hm.
  destruct (script_completes i Hv Hm) as (g & g' & d & _ & _ & _ & Hs & _).
  eexists; exists d. exact Hs.
Qed.

(** Whatever the sidebar widgets deliver, the script completes. *)
Lemma widget_script_completes (i : Inputs) :
  widget_inputs i ->
  exists (s : Summary) (d : DataFrame), script i = Completed s d.
Proof.
  intros H. apply script_completes_ex.
  - now apply widget_valid.
  - now apply widget_moderate.
Qed.

Lemma ratio_scale (n x d : Z) :
  n <> 0 -> d <> 0 -> (ratio (n * x) (n * d) == ratio x d)%Q.
Proof.
  intros Hn Hd. unfold ratio. rewrite !inject_Z_mult.
  assert (Hn' : ~ (inject_Z n == 0)%Q).
  { intros E. apply Hn. change 0%Q with (inject_Z 0) in E.
    rewrite inject_Z_injective in E. exact E. }
  assert (Hd' : ~ (inject_Z d == 0)%Q).
  { intros E. apply Hd. change 0%Q with (inject_Z 0) in E.
    rewrite inject_Z_injective in E. exact E. }
  field. split; assumption.
Qed.

(** * The claims

    Each statement below has two parts where the claim is about what the
    script renders: the script runs to completion on every valid input
    of moderate size, and whatever a completed run has rendered
    satisfies the property. *)

(** C1: for every valid input the summary scalars satisfy
    [total_cost = initial_investment + annual_cost * resale_year *
    business_count], with [initial_investment = business_count *
    purchase_price] and [total_revenue = resale_value * business_count],
    as exact integer equalities. *)
Theorem C1_summary_totals (i : Inputs) :
  valid_inputs i ->
  (moderate i ->
   exists (s : Summary) (d : DataFrame), script i = Completed s d) /\
  forall (s : Summary) (d : DataFrame),
    script i = Completed s d ->
    s_total_cost s
    = s_initial_investment s
      + annual_cost i * resale_year i * num_businesses i /\
    s_initial_investment s = num_businesses i * purchase_price i /\
    s_total_revenue s = resale_value i * num_businesses i.
Proof.
  intros Hv. split; [now apply script_completes_ex |].
  intros s d H.
  destruct (script_completed_inv i s d H) as (E1 & _ & E3 & E4 & _).
  rewrite E1, E3, E4. repeat split.
Qed.

Lemma C1_summary_totals_witness :
  (exists (s : Summary) (d : DataFrame),
     script scenario1 = Completed s d) /\
  forall (s : Summary) (d : DataFrame),
    script scenario1 = Completed s d ->
    s_total_cost s
    = s_initial_investment s
      + annual_cost scenario1 * resale_year scenario1
        * num_businesses scenario1 /\
    s_initial_investment s
    = num_businesses scenario1 * purchase_price scenario1 /\
    s_total_revenue s = resale_value scenario1 * num_businesses scenario1.
Proof.
  destruct (C1_summary_totals scenario1) as [H1 H2].
  - repeat split; reflexivity.
  - split; [apply H1; split; vm_compute; reflexivity | exact H2].
Defined.

(** C2: for every valid input the summary's [net_profit] is exactly
    [total_revenue - total_cost] and its [roi_percent] is the float
    computed as [(net_profit / total_cost) * 100]; for inputs of moderate
    size that float is finite and within a relative error of [2^-51] of
    the exact rational [net_profit / total_cost * 100]. *)
Theorem C2_net_profit_and_roi (i : Inputs) :
  valid_inputs i ->
  (moderate i ->
   exists (s : Summary) (d : DataFrame),
     script i = Completed s d /\
     is_finite (s_roi s) = true /\
     (Qabs (to_Q (s_roi s) - ratio (s_net_profit s) (s_total_cost s) * 100)
      <= eps * Qabs (ratio (s_net_profit s) (s_total_cost s) * 100))%Q) /\
  forall (s : Summary) (d : DataFrame),
    script i = Completed s d ->
    s_net_profit s = s_total_revenue s - s_total_cost s /\
    (x <- int_truediv (s_net_profit s) (s_total_cost s) ;;
     float_mul_int x 100) = Ok (s_roi s).
Proof.
  intros Hv. split.
  - intros Hm.
    destruct (script_completes_ex i Hv Hm) as (s & d & Hs).
    destruct (script_completed_inv i s d Hs) as (_ & _ & E3 & _ & E5 & Er & _).
    destruct (roi_correct i Hv Hm) as (g & Eg & Fg & Hg).
    assert (g = s_roi s) by congruence. subst g.
    exists s, d. rewrite E3, E5. repeat split; assumption.
  - intros s d Hs.
    destruct (script_completed_inv i s d Hs) as (_ & _ & E3 & E4 & E5 & Er & _).
    rewrite E3, E4, E5. split; [reflexivity | exact Er].
Qed.

Lemma C2_net_profit_and_roi_witness :
  (exists (s : Summary) (d : DataFrame),
     script scenario1 = Completed s d /\
     is_finite (s_roi s) = true /\
     (Qabs (to_Q (s_roi s) - ratio (s_net_profit s) (s_total_cost s) * 100)
      <= eps * Qabs (ratio (s_net_profit s) (s_total_cost s) * 100))%Q) /\
  forall (s : Summary) (d : DataFrame),
    script scenario1 = Completed s d ->
    s_net_profit s = s_total_revenue s - s_total_cost s /\
    (x <- int_truediv (s_net_profit s) (s_total_cost s) ;;
     float_mul_int x 100) = Ok (s_roi s).
Proof.
  destruct (C2_net_profit_and_roi scenario1) as [H1 H2].
  - repeat split; reflexivity.
  - split; [apply H1; split; vm_compute; reflexivity | exact H2].
Defined.

(** C3 as stated fails: with a holding period of zero years and
    otherwise ordinary inputs the script raises nothing; it renders a
    summary and an empty table. *)
Lemma C3_counterexample :
  resale_year zero_year_inputs = 0 /\
  (exists (s : Summary) (d : DataFrame),
      script zero_year_inputs = Completed s d /\
      s_total_cost s = 990 /\ rows d = []) /\
  ~ rejected zero_year_inputs.
Proof.
  split; [reflexivity |]. split.
  - eexists; eexists. split; [vm_compute; reflexivity |].
    split; reflexivity.
  - intros [e H]. vm_compute in H. discriminate.
Qed.

(** C3, amended: whenever a computed denominator of the summary is zero
    ([total_cost], or [purchase_price + annual_cost * resale_year]), the
    script stops with [ZeroDivisionError] at line 37, before any summary
    scalar or table is produced. *)
Theorem C3_zero_denominator_fails (i : Inputs) :
  total_cost i = 0 \/
  purchase_price i + annual_cost i * resale_year i = 0 ->
  script i = Failed ZeroDivisionError.
Proof.
  intros H.
  assert (E : total_cost i = 0).
  { destruct H as [H | H]; [assumption |].
    rewrite total_cost_factor, H. ring. }
  unfold script, summary, roi, int_truediv. rewrite E. reflexivity.
Qed.

Lemma C3_zero_denominator_fails_witness :
  script zero_cost_inputs = Failed ZeroDivisionError.
Proof.
  apply (C3_zero_denominator_fails zero_cost_inputs).
  right. reflexivity.
Defined.

(** C4: for every valid input, in the yearly table every row of a year
    before [resale_year] has revenue 0, and the final row is the row of
    year [resale_year] and carries the summary's [total_revenue]. *)
Theorem C4_revenue_lump_sum (i : Inputs) :
  valid_inputs i ->
  (moderate i ->
   exists (s : Summary) (d : DataFrame), script i = Completed s d) /\
  forall (s : Summary) (d : DataFrame),
    script i = Completed s d ->
    (forall r : Row,
        In r (rows d) -> r_year r < resale_year i -> r_revenue r = 0) /\
    (exists (init : list Row) (r : Row),
        rows d = init ++ [r] /\
        r_year r = resale_year i /\
        r_revenue r = s_total_revenue s).
Proof.
  intros Hv. split; [now apply script_completes_ex |].
  intros s d Hs.
  destruct (script_completed_inv i s d Hs) as (_ & _ & _ & E4 & _ & _ & _ & Hrows).
  split.
  - intros r Hr Hy.
    destruct (In_nth_error _ _ Hr) as [k Hk].
    destruct (table_rows i _ Hrows) as [_ Hnth].
    destruct (Hnth k r Hk) as [_ Hrow].
    destruct (row_at_fields _ _ _ Hrow) as (Ey & _ & Erev & _).
    rewrite Erev. apply revenue_at_before. now rewrite <- Ey.
  - destruct (table_last_row i _ ltac:(apply Hv) Hrows) as (init & r & E & Hrow).
    exists init, r. split; [assumption |].
    destruct (row_at_fields _ _ _ Hrow) as (Ey & _ & Erev & _).
    split; [assumption |]. rewrite Erev, E4. apply revenue_at_last.
Qed.

Lemma C4_revenue_lump_sum_witness :
  (exists (s : Summary) (d : DataFrame),
     script scenario1 = Completed s d) /\
  forall (s : Summary) (d : DataFrame),
    script scenario1 = Completed s d ->
    (forall r : Row,
        In r (rows d) -> r_year r < resale_year scenario1 ->
        r_revenue r = 0) /\
    (exists (init : list Row) (r : Row),
        rows d = init ++ [r] /\
        r_year r = resale_year scenario1 /\
        r_revenue r = s_total_revenue s).
Proof.
  destruct (C4_revenue_lump_sum scenario1) as [H1 H2].
  - repeat split; reflexivity.
  - split; [apply H1; split; vm_compute; reflexivity | exact H2].
Defined.

(** C5: for every valid input the table has exactly [resale_year] rows,
    the row at position [k] (counted from 0) is the row of year [k + 1],
    so the years are 1, 2, ..., [resale_year] without gaps, and every row
    is [row_at] of the five inputs and its own year, independent of the
    other rows. *)
Theorem C5_table_shape (i : Inputs) :
  valid_inputs i ->
  (moderate i ->
   exists (s : Summary) (d : DataFrame), script i = Completed s d) /\
  forall (s : Summary) (d : DataFrame),
    script i = Completed s d ->
    Z.of_nat (length (rows d)) = resale_year i /\
    (forall k : nat,
        (k < length (rows d))%nat ->
        exists r : Row,
          nth_error (rows d) k = Some r /\ r_year r = Z.of_nat k + 1) /\
    (forall r : Row, In r (rows d) -> row_at i (r_year r) = Ok r).
Proof.
  intros Hv. split; [now apply script_completes_ex |].
  intros s d Hs.
  destruct (script_completed_inv i s d Hs) as (_ & _ & _ & _ & _ & _ & _ & Hrows).
  destruct (table_rows i _ Hrows) as [Hlen Hnth].
  assert (Hy : 0 < resale_year i) by apply Hv.
  split; [lia |]. split.
  - intros k Hk.
    destruct (nth_error (rows d) k) as [r |] eqn:E.
    + exists r. split; [reflexivity |].
      destruct (Hnth k r E) as [_ Hrow].
      now destruct (row_at_fields _ _ _ Hrow) as (Ey & _).
    + apply nth_error_None in E. lia.
  - intros r Hr. destruct (In_nth_error _ _ Hr) as [k Hk].
    destruct (Hnth k r Hk) as [_ Hrow].
    destruct (row_at_fields _ _ _ Hrow) as (Ey & _).
    now rewrite Ey.
Qed.

Lemma C5_table_shape_witness :
  (exists (s : Summary) (d : DataFrame),
     script scenario1 = Completed s d) /\
  forall (s : Summary) (d : DataFrame),
    script scenario1 = Completed s d ->
    Z.of_nat (length (rows d)) = resale_year scenario1 /\
    (forall k : nat,
        (k < length (rows d))%nat ->
        exists r : Row,
          nth_error (rows d) k = Some r /\ r_year r = Z.of_nat k + 1) /\
    (forall r : Row, In r (rows d) -> row_at scenario1 (r_year r) = Ok r).
Proof.
  destruct (C5_table_shape scenario1) as [H1 H2].
  - repeat split; reflexivity.
  - split; [apply H1; split; vm_compute; reflexivity | exact H2].
Defined.

(** C6: for every valid input and every year [y] in 1..[resale_year],
    the table has a row for [y] with [cumulative_cost = initial_investment
    + y * annual_cost * business_count], [net_profit = revenue -
    cumulative_cost], and [roi_percent] the float computed as
    [(net_profit / cumulative_cost) * 100]; for inputs of moderate size
    that float is finite and within [2^-51] (relative) of the exact
    quotient. *)
Theorem C6_row_formulas (i : Inputs) :
  valid_inputs i ->
  (moderate i ->
   exists (s : Summary) (d : DataFrame),
     script i = Completed s d /\
     forall r : Row,
       In r (rows d) ->
       is_finite (r_roi r) = true /\
       (Qabs (to_Q (r_roi r)
              - ratio (r_net_profit r) (r_cumulative_cost r) * 100)
        <= eps * Qabs (ratio (r_net_profit r) (r_cumulative_cost r) * 100))%Q) /\
  forall (s : Summary) (d : DataFrame),
    script i = Completed s d ->
    forall y : Z,
      1 <= y <= resale_year i ->
      exists r : Row,
        nth_error (rows d) (Z.to_nat (y - 1)) = Some r /\
        r_year r = y /\
        r_cumulative_cost r
        = s_initial_investment s + y * annual_cost i * num_businesses i /\
        r_net_profit r = r_revenue r - r_cumulative_cost r /\
        (x <- int_truediv (r_net_profit r) (r_cumulative_cost r) ;;
         float_mul_int x 100) = Ok (r_roi r).
Proof.
  intros Hv. split.
  - intros Hm.
    destruct (script_completes_ex i Hv Hm) as (s & d & Hs).
    exists s, d. split; [assumption |].
    destruct (script_completed_inv i s d Hs) as (_ & _ & _ & _ & _ & _ & _ & Hrows).
    destruct (table_rows i _ Hrows) as [_ Hnth].
    intros r Hr. destruct (In_nth_error _ _ Hr) as [k Hk].
    destruct (Hnth k r Hk) as [Hlt Hrow].
    destruct (row_at_correct i Hv Hm (Z.of_nat k + 1)) as (r0 & Hrow0 & Hfin & Htol);
      [lia |].
    assert (r0 = r) by congruence. subst r0. now split.
  - intros s d Hs y Hy.
    destruct (script_completed_inv i s d Hs) as (E1 & _ & _ & _ & _ & _ & _ & Hrows).
    destruct (table_row_of_year i _ y Hrows Hy) as (r & Hk & Hrow).
    destruct (row_at_fields _ _ _ Hrow) as (Ey & Ec & Er & En & Eroi).
    exists r. rewrite E1. repeat split; try assumption.
    rewrite En, Er, Ec. reflexivity.
Qed.

Lemma C6_row_formulas_witness :
  (exists (s : Summary) (d : DataFrame),
     script scenario1 = Completed s d /\
     forall r : Row,
       In r (rows d) ->
       is_finite (r_roi r) = true /\
       (Qabs (to_Q (r_roi r)
              - ratio (r_net_profit r) (r_cumulative_cost r) * 100)
        <= eps * Qabs (ratio (r_net_profit r) (r_cumulative_cost r) * 100))%Q) /\
  forall (s : Summary) (d : DataFrame),
    script scenario1 = Completed s d ->
    forall y : Z,
      1 <= y <= resale_year scenario1 ->
      exists r : Row,
        nth_error (rows d) (Z.to_nat (y - 1)) = Some r /\
        r_year r = y /\
        r_cumulative_cost r
        = s_initial_investment s
          + y * annual_cost scenario1 * num_businesses scenario1 /\
        r_net_profit r = r_revenue r - r_cumulative_cost r /\
        (x <- int_truediv (r_net_profit r) (r_cumulative_cost r) ;;
         float_mul_int x 100) = Ok (r_roi r).
Proof.
  destruct (C6_row_formulas scenario1) as [H1 H2].
  - repeat split; reflexivity.
  - split; [apply H1; split; vm_compute; reflexivity | exact H2].
Defined.



(** C8 as stated fails: on scenario 1 both ROI figures are the float
    [6902510058579083 * 2^-42], about 1569.449, which lies more than
    0.33 below the stated 1569.78 and does not round to it. *)
Lemma C8_counterexample :
  roi scenario1 = Ok (S754_finite false 6902510058579083 (-42)) /\
  roi_per_business scenario1
  = Ok (S754_finite false 6902510058579083 (-42)) /\
  (33 # 100 < (156978 # 100)
              - to_Q (S754_finite false 6902510058579083 (-42)))%Q /\
  ~ (Qabs (to_Q (S754_finite false 6902510058579083 (-42)) - (156978 # 100))
     <= 5 # 1000)%Q.
Proof.
  split; [vm_compute; reflexivity |].
  split; [vm_compute; reflexivity |].
  split; [vm_compute; reflexivity |].
  intros H. vm_compute in H. now apply H.
Qed.

(** C8, amended: on scenario 1 the script produces
    [initial_investment = 990], [total_annual_cost = 5000],
    [total_cost = 5990], [total_revenue = 100000], [net_profit = 94010],
    and both [roi_percent] and [roi_per_business_percent] round to
    1569.45; the exact value of both is [940100 / 599]. *)
Theorem C8_scenario1 :
  exists (s : Summary) (d : DataFrame),
    script scenario1 = Completed s d /\
    s_initial_investment s = 990 /\
    s_total_annual_cost s = 5000 /\
    s_total_cost s = 5990 /\
    s_total_revenue s = 100000 /\
    s_net_profit s = 94010 /\
    (Qabs (to_Q (s_roi s) - (156945 # 100)) <= 5 # 1000)%Q /\
    (Qabs (to_Q (s_roi_per_business s) - (156945 # 100)) <= 5 # 1000)%Q /\
    (roi_exact scenario1 == 940100 # 599)%Q /\
    (roi_per_business_exact scenario1 == 940100 # 599)%Q.
Proof.
  eexists; eexists. split; [vm_compute; reflexivity |].
  cbn [s_initial_investment s_total_annual_cost s_total_cost
       s_total_revenue s_net_profit s_roi s_roi_per_business].
  repeat split; vm_compute; congruence.
Qed.

(** C9: for every valid input the summary ROI and the per-business ROI
    are the same number: their exact values are equal rationals, and for
    inputs of moderate size the two floats the script computes are
    identical as well. *)
Theorem C9_roi_equals_roi_per_business (i : Inputs) :
  valid_inputs i ->
  (roi_exact i == roi_per_business_exact i)%Q /\
  (moderate i ->
   exists (s : Summary) (d : DataFrame),
     script i = Completed s d /\ s_roi s = s_roi_per_business s).
Proof.
  intros Hv.
  pose proof (unit_cost_pos i Hv) as Hd.
  pose proof (total_cost_pos i Hv) as Ht.
  assert (Hb : 0 < num_businesses i) by apply Hv.
  split.
  - unfold roi_exact, roi_per_business_exact.
    rewrite net_profit_factor, total_cost_factor, ratio_scale by lia.
    reflexivity.
  - intros Hm.
    pose proof (net_profit_small i Hv Hm) as Hn.
    destruct (script_completes_ex i Hv Hm) as (s & d & Hs).
    destruct (script_completed_inv i s d Hs) as (_ & _ & _ & _ & _ & Er & Er' & _).
    exists s, d. split; [exact Hs |].
    assert (E : roi i = roi_per_business i).
    { destruct Hm as [_ Hc]. unfold roi, roi_per_business.
      rewrite net_profit_factor, total_cost_factor in *.
      rewrite Rounding.int_truediv_scale; [reflexivity | lia | lia | lia]. }
    congruence.
Qed.

Lemma C9_roi_equals_roi_per_business_witness :
  (roi_exact scenario1 == roi_per_business_exact scenario1)%Q /\
  exists (s : Summary) (d : DataFrame),
    script scenario1 = Completed s d /\ s_roi s = s_roi_per_business s.
Proof.
  destruct (C9_roi_equals_roi_per_business scenario1) as [H1 H2].
  - repeat split; reflexivity.
  - split; [exact H1 | apply H2; split; vm_compute; reflexivity].
Defined.

(** C10: for every valid input the final row of the table agrees with
    the summary: it is the row of year [resale_year], its cumulative cost
    is [total_cost], its net profit is [net_profit], and its ROI is the
    very float shown as the summary ROI. *)
Theorem C10_final_row_matches_summary (i : Inputs) :
  valid_inputs i ->
  (moderate i ->
   exists (s : Summary) (d : DataFrame), script i = Completed s d) /\
  forall (s : Summary) (d : DataFrame),
    script i = Completed s d ->
    exists (init : list Row) (r : Row),
      rows d = init ++ [r] /\
      r_year r = resale_year i /\
      r_cumulative_cost r = s_total_cost s /\
      r_net_profit r = s_net_profit s /\
      r_roi r = s_roi s.
Proof.
  intros Hv. split; [now apply script_completes_ex |].
  intros s d Hs.
  destruct (script_completed_inv i s d Hs)
    as (_ & _ & E3 & _ & E5 & Eg & _ & Hrows).
  destruct (table_last_row i _ ltac:(apply Hv) Hrows) as (init & r & E & Hrow).
  destruct (row_at_fields _ _ _ Hrow) as (Ey & Ec & Er & En & Eroi).
  rewrite cumulative_cost_last in Ec. rewrite revenue_at_last in Er.
  rewrite cumulative_cost_last, revenue_at_last in En.
  exists init, r. rewrite E3, E5.
  repeat split; try assumption.
  rewrite En, Ec in Eroi. unfold roi, net_profit in Eg. congruence.
Qed.

Lemma C10_final_row_matches_summary_witness :
  (exists (s : Summary) (d : DataFrame),
     script scenario1 = Completed s d) /\
  forall (s : Summary) (d : DataFrame),
    script scenario1 = Completed s d ->
    exists (init : list Row) (r : Row),
      rows d = init ++ [r] /\
      r_year r = resale_year scenario1 /\
      r_cumulative_cost r = s_total_cost s /\
      r_net_profit r = s_net_profit s /\
      r_roi r = s_roi s.
Proof.
  destruct (C10_final_row_matches_summary scenario1) as [H1 H2].
  - repeat split; reflexivity.
  - split; [apply H1; split; vm_compute; reflexivity | exact H2].
Defined.

(** * Further properties of the script *)

(** ** Exceptions *)

Lemma mapM_Raise {A B} (f : A -> result B) (l : list A) (e : exn) :
  mapM f l = Raise e -> exists a : A, In a l /\ f a = Raise e.
Proof.
  induction l as [| a l IH]; intros H; [discriminate |].
  cbn [mapM] in H. destruct (f a) as [b |] eqn:Ea.
  - cbn [bind] in H. destruct (mapM f l) as [bs |]; [discriminate |].
    injection H as ->. destruct IH as (a' & Hin & Ha'); [reflexivity |].
    exists a'. split; [now right | assumption].
  - injection H as ->. exists a. split; [now left | assumption].
Qed.

Lemma mapM_ext {A B} (f g : A -> result B) (l : list A) :
  (forall a, In a l -> f a = g a) -> mapM f l = mapM g l.
Proof.
  induction l as [| a l IH]; intros H; [reflexivity |].
  cbn [mapM]. rewrite H by now left.
  rewrite IH; [reflexivity |]. intros; apply H; now right.
Qed.

(** A percentage [(a / b) * 100] raises only on a zero divisor or on a
    quotient beyond the float range. *)
Lemma percent_Raise (a b : Z) (e : exn) :
  (x <- int_truediv a b ;; float_mul_int x 100) = Raise e ->
  (e = ZeroDivisionError /\ b = 0) \/ (e = OverflowError /\ b <> 0).
Proof.
  unfold int_truediv. destruct (Z.eqb_spec b 0) as [Hb | Hb].
  - cbn [bind]. intros H. injection H as <-. now left.
  - destruct (SFdiv prec emax (int_operand a) (int_operand b));
      cbn [bind]; unfold float_mul_int;
      rewrite ?Rounding.float_of_int_100; cbn [bind]; intros H;
      try discriminate.
    injection H as <-. now right.
Qed.

Lemma percent_zero_divisor (a : Z) :
  (x <- int_truediv a 0 ;; float_mul_int x 100) = Raise ZeroDivisionError.
Proof. reflexivity. Qed.

Lemma df_Raise (i : Inputs) (e : exn) :
  df i = Raise e ->
  exists y : Z,
    1 <= y <= resale_year i /\
    (x <- int_truediv (revenue_at i y - cumulative_cost_at i y)
                      (cumulative_cost_at i y) ;;
     float_mul_int x 100) = Raise e.
Proof.
  unfold df. rewrite profit_closed, roi_over_time_closed. cbn [bind].
  intros H.
  destruct (mapM _ (years i)) as [rs |] eqn:E; [discriminate |].
  cbn [bind] in H. injection H as ->.
  destruct (mapM_Raise _ _ _ E) as (y & Hy & Hr).
  exists y. split; [now apply years_In | assumption].
Qed.

Lemma summary_Raise (i : Inputs) (e : exn) :
  summary i = Raise e -> roi i = Raise e \/ roi_per_business i = Raise e.
Proof.
  unfold summary. destruct (roi i) as [g |]; cbn [bind].
  - destruct (roi_per_business i) as [g' |]; cbn [bind]; [discriminate |].
    intros H. right. congruence.
  - intros H. left. congruence.
Qed.

(** X1: whatever the five integers are, once the list of years of
    line 57 is built, lines 58-61 never raise [IndexError]: every index
    used at lines 60 and 61 is in range, so the net-profit list is
    always built, with one entry per year; the only line that can raise
    is the division of line 61, with [ZeroDivisionError] only if the
    cumulative cost of some year 1..[resale_year] is zero, and otherwise
    with [OverflowError]. *)
Theorem X1_table_raises_only_on_division (i : Inputs) (e : exn) :
  df i = Raise e ->
  (exists p : list Z,
      profit i = Ok p /\ length p = Z.to_nat (resale_year i)) /\
  ((e = ZeroDivisionError /\
    exists y : Z, 1 <= y <= resale_year i /\ cumulative_cost_at i y = 0) \/
   e = OverflowError).
Proof.
  intros H. split.
  - eexists. split; [apply profit_closed |].
    now rewrite length_map, years_length.
  - destruct (df_Raise i e H) as (y & Hy & Hr).
    destruct (percent_Raise _ _ _ Hr) as [[-> Hz] | [-> _]].
    + left. split; [reflexivity |]. now exists y.
    + now right.
Qed.

Lemma X1_table_raises_only_on_division_witness :
  (exists p : list Z,
      profit zero_first_year_inputs = Ok p /\
      length p = Z.to_nat (resale_year zero_first_year_inputs)) /\
  ((ZeroDivisionError = ZeroDivisionError /\
    exists y : Z,
      1 <= y <= resale_year zero_first_year_inputs /\
      cumulative_cost_at zero_first_year_inputs y = 0) \/
   ZeroDivisionError = OverflowError).
Proof.
  apply (X1_table_raises_only_on_division zero_first_year_inputs).
  vm_compute. reflexivity.
Defined.

(** X2: the script stops with [ZeroDivisionError] before rendering
    anything if and only if [total_cost] is zero. *)
Theorem X2_failed_iff_zero_total_cost (i : Inputs) :
  script i = Failed ZeroDivisionError <-> total_cost i = 0.
Proof.
  split.
  - unfold script. intros H.
    destruct (summary i) as [s |] eqn:Es.
    + destruct (df i); discriminate.
    + injection H as ->.
      destruct (summary_Raise i _ Es) as [Hr | Hr];
        destruct (percent_Raise _ _ _ Hr) as [[_ Hz] | [Hne _]];
        try discriminate; [assumption |].
      rewrite total_cost_factor, Hz. ring.
  - intros E. unfold script, summary, roi, int_truediv. rewrite E. reflexivity.
Qed.

(** ** The table on degenerate inputs *)

Lemma years_nil (i : Inputs) : resale_year i <= 0 -> years i = [].
Proof.
  intros H. unfold years, range.
  replace (Z.to_nat (resale_year i + 1 - 1)) with 0%nat by lia. reflexivity.
Qed.

(** X3: with a holding period of zero or fewer years [range(1,
    resale_year + 1)] is empty, so lines 57-69 raise nothing and build a
    data frame whose five columns are all empty, whatever the other
    four integers are. *)
Theorem X3_empty_table (i : Inputs) :
  resale_year i <= 0 ->
  df i
  = Ok {| Year := []; Cumulative_Cost := []; Projected_Revenue := [];
          Net_Profit := []; ROI := [] |}.
Proof.
  intros Hy.
  unfold df. rewrite profit_closed, roi_over_time_closed.
  unfold cumulative_costs, revenue.
  rewrite (years_nil i Hy). reflexivity.
Qed.

Lemma X3_empty_table_witness :
  df zero_year_inputs
  = Ok {| Year := []; Cumulative_Cost := []; Projected_Revenue := [];
          Net_Profit := []; ROI := [] |}.
Proof.
  apply (X3_empty_table zero_year_inputs).
  vm_compute. discriminate.
Defined.

Lemma abs_mul_lt (a b A B : Z) :
  Z.abs a < A -> Z.abs b < B -> Z.abs (a * b) < A * B.
Proof.
  intros Ha Hb. rewrite Z.abs_mul.
  apply Z.mul_lt_mono_nonneg; auto using Z.abs_nonneg.
Qed.

(** Small inputs keep every operand of line 61 far below [2^512]. *)
Lemma small_row_operands (i : Inputs) (y : Z) :
  small_inputs i ->
  1 <= y <= resale_year i ->
  Z.abs (cumulative_cost_at i y) < 2 ^ 512 /\
  Z.abs (revenue_at i y - cumulative_cost_at i y) < 2 ^ 512.
Proof.
  intros (Hn & Hp & Ha & Hv & Hr) Hy.
  assert (Hy' : Z.abs y < 2 ^ 100) by lia.
  pose proof (abs_mul_lt _ _ _ _ Hn Hp) as H1.
  pose proof (abs_mul_lt _ _ _ _ Hy' Ha) as H2.
  pose proof (abs_mul_lt _ _ _ _ H2 Hn) as H3.
  pose proof (abs_mul_lt _ _ _ _ Hv Hn) as H4.
  unfold cumulative_cost_at, revenue_at, initial_investment, total_revenue.
  set (a := num_businesses i * purchase_price i) in *.
  set (b := y * annual_cost i * num_businesses i) in *.
  set (c := resale_value i * num_businesses i) in *.
  assert (E2 : 2 ^ 100 * 2 ^ 100 = 2 ^ 200) by reflexivity.
  assert (E3 : 2 ^ 100 * 2 ^ 100 * 2 ^ 100 = 2 ^ 300) by reflexivity.
  rewrite E2 in H1, H4. rewrite E3 in H3.
  assert (L2 : 2 ^ 200 < 2 ^ 510) by reflexivity.
  assert (L3 : 2 ^ 300 < 2 ^ 510) by reflexivity.
  assert (L5 : 4 * 2 ^ 510 = 2 ^ 512) by reflexivity.
  destruct (y <? resale_year i); lia.
Qed.

(** The first failing element decides the exception of a traversal. *)
Lemma mapM_Raise_uniform {A B} (f : A -> result B) (l : list A) (e : exn) :
  (forall a, In a l -> (exists b, f a = Ok b) \/ f a = Raise e) ->
  (exists a, In a l /\ f a = Raise e) ->
  mapM f l = Raise e.
Proof.
  induction l as [| a0 l IH]; intros Hall (a & Hin & Ha).
  - contradiction.
  - cbn [mapM].
    destruct (Hall a0 (or_introl eq_refl)) as [[b Hb] | Hr].
    + rewrite Hb. cbn [bind].
      destruct Hin as [-> | Hin]; [congruence |].
      rewrite IH; [reflexivity | | now exists a].
      intros a' Ha'. apply Hall. now right.
    + now rewrite Hr.
Qed.

(** X4: for four amounts of at most a hundred bits each, of either
    sign, and a holding period below [2^20] years: if the cumulative
    cost of some year 1..[resale_year] is zero,
    building the table stops at line 61 with [ZeroDivisionError]; when
    the summary could be computed, the script has then rendered the
    metrics and produces no table. *)
Theorem X4_zero_cumulative_cost (i : Inputs) (y : Z) :
  small_inputs i ->
  1 <= y <= resale_year i ->
  cumulative_cost_at i y = 0 ->
  df i = Raise ZeroDivisionError /\
  forall s : Summary,
    summary i = Ok s ->
    script i = FailedAfterSummary s ZeroDivisionError.
Proof.
  intros Hsmall Hy Hz.
  assert (Hr : roi_over_time i = Raise ZeroDivisionError).
  { rewrite roi_over_time_closed. apply mapM_Raise_uniform.
    - intros y' Hy'. apply years_In in Hy'.
      destruct (Z.eq_dec (cumulative_cost_at i y') 0) as [E0 | N0].
      + right. rewrite E0. apply percent_zero_divisor.
      + left.
        destruct (small_row_operands i y' Hsmall Hy') as [Hc Hp].
        destruct (Rounding.percent_correct _ _ N0 Hp Hc) as (g & Eg & _).
        now exists g.
    - exists y. split; [now apply years_In |].
      rewrite Hz. apply percent_zero_divisor. }
  assert (Hdf : df i = Raise ZeroDivisionError).
  { unfold df. rewrite profit_closed, Hr. reflexivity. }
  split; [assumption |].
  intros s Hs. unfold script. now rewrite Hs, Hdf.
Qed.

Lemma X4_zero_cumulative_cost_witness :
  df zero_first_year_inputs = Raise ZeroDivisionError /\
  exists s : Summary,
    summary zero_first_year_inputs = Ok s /\
    script zero_first_year_inputs = FailedAfterSummary s ZeroDivisionError.
Proof.
  destruct (X4_zero_cumulative_cost zero_first_year_inputs 1) as [H1 H2].
  - repeat split; vm_compute; reflexivity.
  - vm_compute. split; discriminate.
  - reflexivity.
  - split; [exact H1 |].
    eexists. split; [vm_compute; reflexivity |].
    apply H2. vm_compute. reflexivity.
Defined.

(** X5: whenever the table is built, its five columns have the same
    length, [resale_year] (or 0 when that is negative), as the data
    frame constructor of line 63 requires, and the net-profit column is
    the revenue column minus the cumulative-cost column, entry by
    entry. *)
Theorem X5_columns_aligned (i : Inputs) (d : DataFrame) :
  df i = Ok d ->
  length (Year d) = Z.to_nat (resale_year i) /\
  length (Cumulative_Cost d) = Z.to_nat (resale_year i) /\
  length (Projected_Revenue d) = Z.to_nat (resale_year i) /\
  length (Net_Profit d) = Z.to_nat (resale_year i) /\
  length (ROI d) = Z.to_nat (resale_year i) /\
  length (rows d) = Z.to_nat (resale_year i) /\
  Net_Profit d
  = map (fun rc => fst rc - snd rc)
        (combine (Projected_Revenue d) (Cumulative_Cost d)).
Proof.
  unfold df. rewrite profit_closed. cbn [bind]. intros H.
  destruct (roi_over_time i) as [rs |] eqn:Er; [| discriminate].
  cbn [bind] in H. injection H as <-.
  cbn [Year Cumulative_Cost Projected_Revenue Net_Profit ROI].
  rewrite roi_over_time_closed in Er.
  pose proof (mapM_length _ _ _ Er) as Hrs.
  pose proof (years_length i) as Hy.
  rewrite cumulative_costs_at, revenue_at_years, !length_map.
  repeat split; try assumption; try congruence.
  - unfold rows. cbn [Year Cumulative_Cost Projected_Revenue Net_Profit ROI].
    rewrite length_map, !length_combine, !length_map. lia.
  - rewrite combine_map_same, map_map. reflexivity.
Qed.

Lemma X5_columns_aligned_witness :
  exists d : DataFrame,
    df scenario1 = Ok d /\
    length (Year d) = 10%nat /\ length (ROI d) = 10%nat /\
    length (rows d) = 10%nat.
Proof.
  eexists. split; [vm_compute; reflexivity |].
  destruct (X5_columns_aligned scenario1 _ eq_refl)
    as (H1 & _ & _ & _ & H5 & H6 & _).
  repeat split; assumption.
Defined.

(** X6: in every table the script completes, the cumulative cost grows
    from each row to the next by exactly the "Annual Maintenance" metric
    [annual_cost * num_businesses] of line 46, the first row stands one
    such step above the initial investment, and the total cost is the
    initial investment plus [resale_year] such steps. *)
Theorem X6_cumulative_cost_steps (i : Inputs) (s : Summary) (d : DataFrame) :
  script i = Completed s d ->
  (forall r : Row,
      nth_error (rows d) 0 = Some r ->
      r_cumulative_cost r = s_initial_investment s + annual_maintenance i) /\
  (forall (k : nat) (r1 r2 : Row),
      nth_error (rows d) k = Some r1 ->
      nth_error (rows d) (S k) = Some r2 ->
      r_cumulative_cost r2 = r_cumulative_cost r1 + annual_maintenance i) /\
  s_total_cost s
  = s_initial_investment s + resale_year i * annual_maintenance i.
Proof.
  intros Hs.
  destruct (script_completed_inv i s d Hs) as (E1 & _ & E3 & _ & _ & _ & _ & Hrows).
  destruct (table_rows i _ Hrows) as [_ Hnth].
  unfold annual_maintenance. split; [| split].
  - intros r Hr. destruct (Hnth _ _ Hr) as [_ Hrow].
    change (Z.of_nat 0 + 1) with 1 in Hrow.
    destruct (row_at_fields _ _ _ Hrow) as (_ & Ec & _).
    rewrite Ec, E1. unfold cumulative_cost_at. ring.
  - intros k r1 r2 H1 H2.
    destruct (Hnth _ _ H1) as [_ Hrow1]. destruct (Hnth _ _ H2) as [_ Hrow2].
    destruct (row_at_fields _ _ _ Hrow1) as (_ & Ec1 & _).
    destruct (row_at_fields _ _ _ Hrow2) as (_ & Ec2 & _).
    rewrite Ec1, Ec2. unfold cumulative_cost_at. lia.
  - rewrite E3, E1. unfold total_cost, total_annual_cost, total_years. ring.
Qed.

Lemma X6_cumulative_cost_steps_witness :
  exists (s : Summary) (d : DataFrame),
    script scenario1 = Completed s d /\
    s_total_cost s
    = s_initial_investment s
      + resale_year scenario1 * annual_maintenance scenario1.
Proof.
  eexists; eexists. split; [vm_compute; reflexivity |].
  apply (X6_cumulative_cost_steps scenario1 _ _ eq_refl).
Defined.

(** ** The ROI figures *)

(** [-c / c] is exactly [-1.0], and [-1.0 * 100] exactly [-100.0]. *)
Lemma percent_of_total_loss (c : Z) :
  0 < c < 2 ^ 512 ->
  (x <- int_truediv (0 - c) c ;; float_mul_int x 100) = Ok minus_hundred.
Proof.
  intros Hc.
  replace (0 - c) with (c * -1) by ring.
  replace c with (c * 1) at 2 by ring.
  rewrite Rounding.int_truediv_scale by lia.
  reflexivity.
Qed.

(** X7: for every valid input of moderate size, each row of a year
    before [resale_year] shows a net profit that is the negated
    cumulative cost, hence negative, and an ROI that is exactly the
    float [-100.0]. *)
Theorem X7_rows_before_sale (i : Inputs) (s : Summary) (d : DataFrame) :
  valid_inputs i -> moderate i ->
  script i = Completed s d ->
  forall r : Row,
    In r (rows d) -> r_year r < resale_year i ->
    r_net_profit r = - r_cumulative_cost r /\
    r_net_profit r < 0 /\
    r_roi r = minus_hundred.
Proof.
  intros Hv Hm Hs r Hr Hy.
  destruct (script_completed_inv i s d Hs) as (_ & _ & _ & _ & _ & _ & _ & Hrows).
  destruct (table_rows i _ Hrows) as [_ Hnth].
  destruct (In_nth_error _ _ Hr) as [k Hk].
  destruct (Hnth k r Hk) as [Hlt Hrow].
  destruct (row_at_fields _ _ _ Hrow) as (Ey & Ec & Erev & En & Eroi).
  rewrite Ey in Hy.
  rewrite (revenue_at_before i _ Hy) in En.
  pose proof (cumulative_cost_bounds i Hv (Z.of_nat k + 1) ltac:(lia)) as Hb.
  destruct Hm as [_ Hc].
  split; [lia |]. split; [lia |].
  rewrite En, Ec in Eroi. rewrite percent_of_total_loss in Eroi by lia.
  congruence.
Qed.

Lemma X7_rows_before_sale_witness :
  exists (s : Summary) (d : DataFrame),
    script scenario1 = Completed s d /\
    forall r : Row,
      In r (rows d) -> r_year r < resale_year scenario1 ->
      r_net_profit r = - r_cumulative_cost r /\
      r_net_profit r < 0 /\
      r_roi r = minus_hundred.
Proof.
  eexists; eexists. split; [vm_compute; reflexivity |].
  eapply (X7_rows_before_sale scenario1).
  - repeat split; reflexivity.
  - split; vm_compute; reflexivity.
  - reflexivity.
Defined.

(** The division of line 37 is the division of line 38. *)
Lemma roi_is_roi_per_business (i : Inputs) :
  valid_inputs i -> moderate i -> roi i = roi_per_business i.
Proof.
  intros Hv Hm.
  pose proof (total_cost_pos i Hv) as Ht.
  pose proof (net_profit_small i Hv Hm) as Hn.
  assert (Hb : 0 < num_businesses i) by apply Hv.
  destruct Hm as [_ Hc]. unfold roi, roi_per_business.
  rewrite net_profit_factor, total_cost_factor in *.
  rewrite Rounding.int_truediv_scale; [reflexivity | lia | lia | lia].
Qed.

(** The division of line 61, with the number of businesses cancelled. *)
Lemma row_quotient_per_business (i : Inputs) (y : Z) :
  valid_inputs i -> moderate i ->
  1 <= y <= resale_year i ->
  int_truediv (revenue_at i y - cumulative_cost_at i y)
              (cumulative_cost_at i y)
  = int_truediv
      ((if y <? resale_year i then 0 else resale_value i)
       - (purchase_price i + y * annual_cost i))
      (purchase_price i + y * annual_cost i).
Proof.
  intros Hv Hm Hy.
  pose proof (cumulative_cost_bounds i Hv y Hy) as Hc.
  pose proof (revenue_at_bounds i Hv y) as Hr.
  assert (Hb : 0 < num_businesses i) by apply Hv.
  destruct Hm as [Hm1 Hm2].
  assert (Ec : cumulative_cost_at i y
               = num_businesses i * (purchase_price i + y * annual_cost i)).
  { unfold cumulative_cost_at, initial_investment. ring. }
  assert (Er : revenue_at i y - cumulative_cost_at i y
               = num_businesses i
                 * ((if y <? resale_year i then 0 else resale_value i)
                    - (purchase_price i + y * annual_cost i))).
  { rewrite Ec. unfold revenue_at, total_revenue.
    destruct (y <? resale_year i); ring. }
  rewrite Er, Ec in *.
  apply Rounding.int_truediv_scale; lia.
Qed.

(** X8: the number of businesses scales the costs and the revenue but
    none of the ROI figures: two valid inputs of moderate size that
    differ only in [num_businesses] yield the same float for the summary
    ROI, for the per-business ROI, and for the ROI of every year of the
    table. *)
Theorem X8_roi_independent_of_count (i j : Inputs) :
  valid_inputs i -> moderate i ->
  valid_inputs j -> moderate j ->
  purchase_price i = purchase_price j ->
  annual_cost i = annual_cost j ->
  resale_value i = resale_value j ->
  resale_year i = resale_year j ->
  roi i = roi j /\
  roi_per_business i = roi_per_business j /\
  roi_over_time i = roi_over_time j.
Proof.
  intros Hvi Hmi Hvj Hmj Ep Ea Ev Ey.
  assert (Eb : roi_per_business i = roi_per_business j).
  { unfold roi_per_business. now rewrite Ep, Ea, Ev, Ey. }
  split; [| split; [assumption |]].
  - now rewrite (roi_is_roi_per_business i), (roi_is_roi_per_business j).
  - rewrite !roi_over_time_closed.
    assert (Eyears : years i = years j) by (unfold years; now rewrite Ey).
    rewrite <- Eyears. apply mapM_ext. intros y Hy.
    apply years_In in Hy.
    rewrite (row_quotient_per_business i y Hvi Hmi Hy).
    rewrite (row_quotient_per_business j y Hvj Hmj ltac:(lia)).
    now rewrite Ep, Ea, Ev, Ey.
Qed.

Lemma X8_roi_independent_of_count_witness :
  roi scenario1 = roi scenario1_scaled /\
  roi_per_business scenario1 = roi_per_business scenario1_scaled /\
  roi_over_time scenario1 = roi_over_time scenario1_scaled.
Proof.
  apply (X8_roi_independent_of_count scenario1 scenario1_scaled);
    try reflexivity.
  - repeat split; reflexivity.
  - split; vm_compute; reflexivity.
  - repeat split; reflexivity.
  - split; vm_compute; reflexivity.
Defined.

Lemma inject_Z_pos (z : Z) : 0 < z -> (0 < inject_Z z)%Q.
Proof. intros H. change 0%Q with (inject_Z 0). now rewrite <- Zlt_Qlt. Qed.

(** A float within the tolerance of a rational has the sign of that
    rational. *)
Lemma tolerance_sign (G R : Q) :
  (Qabs (G - R) <= eps * Qabs R)%Q ->
  ((0 < G <-> 0 < R) /\ (G == 0 <-> R == 0) /\ (G < 0 <-> R < 0))%Q.
Proof.
  unfold eps. intros H. apply Qabs_Qle_condition in H.
  destruct (Rounding.Qabs_elim R) as [[E S] | [E S]]; rewrite E in H;
    repeat split; intros; lra.
Qed.

(** Bounds on a quotient of ints read off the ints. *)
Lemma ratio_lt (a b c : Z) :
  0 < b -> a < c * b -> (ratio a b < inject_Z c)%Q.
Proof.
  intros Hb H. unfold ratio. apply Qlt_shift_div_r; [now apply inject_Z_pos |].
  rewrite <- inject_Z_mult. now rewrite <- Zlt_Qlt.
Qed.

Lemma ratio_gt (a b c : Z) :
  0 < b -> c * b < a -> (inject_Z c < ratio a b)%Q.
Proof.
  intros Hb H. unfold ratio. apply Qlt_shift_div_l; [now apply inject_Z_pos |].
  rewrite <- inject_Z_mult. now rewrite <- Zlt_Qlt.
Qed.

Lemma ratio_zero (a b : Z) : 0 < b -> (ratio a b == 0)%Q <-> a = 0.
Proof.
  intros Hb. split.
  - intros H.
    destruct (Z.lt_trichotomy a 0) as [Hlt | [Heq | Hgt]]; [| assumption |].
    + pose proof (ratio_lt a b 0 Hb ltac:(lia)) as Hr.
      change (inject_Z 0) with 0%Q in Hr. lra.
    + pose proof (ratio_gt a b 0 Hb ltac:(lia)) as Hr.
      change (inject_Z 0) with 0%Q in Hr. lra.
  - intros ->. unfold ratio, Qdiv. change (inject_Z 0) with 0%Q. ring.
Qed.

(** X9: for every valid input of moderate size the sign of the ROI the
    summary shows is decided by the per-business break-even alone: the
    float is positive, zero or negative exactly as [resale_value] is
    above, equal to or below [purchase_price + annual_cost *
    resale_year]. *)
Theorem X9_break_even (i : Inputs) :
  valid_inputs i -> moderate i ->
  exists g : float,
    roi i = Ok g /\
    ((0 < to_Q g)%Q <->
     purchase_price i + annual_cost i * resale_year i < resale_value i) /\
    ((to_Q g == 0)%Q <->
     resale_value i = purchase_price i + annual_cost i * resale_year i) /\
    ((to_Q g < 0)%Q <->
     resale_value i < purchase_price i + annual_cost i * resale_year i).
Proof.
  intros Hv Hm.
  destruct (roi_correct i Hv Hm) as (g & Eg & _ & Hg).
  exists g. split; [assumption |].
  destruct (tolerance_sign _ _ Hg) as (Hpos & Hzero & Hneg).
  pose proof (total_cost_pos i Hv) as Ht.
  assert (Hb : 0 < num_businesses i) by apply Hv.
  pose proof (net_profit_factor i) as En.
  set (u := purchase_price i + annual_cost i * resale_year i) in *.
  unfold roi_exact in *.
  set (R := ratio (net_profit i) (total_cost i)) in *.
  assert (Rpos : (0 < R)%Q <-> 0 < net_profit i).
  { split; intros H.
    - destruct (Z.lt_ge_cases 0 (net_profit i)) as [| Hle]; [assumption |].
      destruct (Z.eq_dec (net_profit i) 0) as [E0 | N0].
      + apply (ratio_zero _ _ Ht) in E0. fold R in E0. lra.
      + pose proof (ratio_lt (net_profit i) (total_cost i) 0 Ht ltac:(lia)) as Hr.
        fold R in Hr. change (inject_Z 0) with 0%Q in Hr. lra.
    - pose proof (ratio_gt (net_profit i) (total_cost i) 0 Ht ltac:(lia)) as Hr.
      now change (inject_Z 0) with 0%Q in Hr. }
  assert (Rneg : (R < 0)%Q <-> net_profit i < 0).
  { split; intros H.
    - destruct (Z.lt_ge_cases (net_profit i) 0) as [| Hge]; [assumption |].
      destruct (Z.eq_dec (net_profit i) 0) as [E0 | N0].
      + apply (ratio_zero _ _ Ht) in E0. fold R in E0. lra.
      + pose proof (ratio_gt (net_profit i) (total_cost i) 0 Ht ltac:(lia)) as Hr.
        fold R in Hr. change (inject_Z 0) with 0%Q in Hr. lra.
    - pose proof (ratio_lt (net_profit i) (total_cost i) 0 Ht ltac:(lia)) as Hr.
      now change (inject_Z 0) with 0%Q in Hr. }
  pose proof (ratio_zero (net_profit i) (total_cost i) Ht) as Rzero. fold R in Rzero.
  split; [| split].
  - rewrite Hpos. split; intros H.
    + assert (0 < R)%Q by lra. apply Rpos in H0. nia.
    + assert (0 < net_profit i) by nia. apply Rpos in H0. lra.
  - rewrite Hzero. split; intros H.
    + assert (R == 0)%Q by lra. apply Rzero in H0. nia.
    + assert (net_profit i = 0) by nia. apply Rzero in H0. lra.
  - rewrite Hneg. split; intros H.
    + assert (R < 0)%Q by lra. apply Rneg in H0. nia.
    + assert (net_profit i < 0) by nia. apply Rneg in H0. lra.
Qed.

Lemma X9_break_even_witness :
  exists g : float,
    roi scenario1 = Ok g /\
    ((0 < to_Q g)%Q <->
     purchase_price scenario1 + annual_cost scenario1 * resale_year scenario1
     < resale_value scenario1) /\
    ((to_Q g == 0)%Q <->
     resale_value scenario1
     = purchase_price scenario1
       + annual_cost scenario1 * resale_year scenario1) /\
    ((to_Q g < 0)%Q <->
     resale_value scenario1
     < purchase_price scenario1
       + annual_cost scenario1 * resale_year scenario1).
Proof.
  apply (X9_break_even scenario1).
  - repeat split; reflexivity.
  - split; vm_compute; reflexivity.
Defined.

(** ** Inside the widget ranges *)

(** X10: whatever the sidebar widgets deliver, the script raises no
    exception and renders everything: the total cost lies between 1,290
    and 439,800, the total revenue between 10,000 and 20,000,000, the
    table has between 3 and 20 rows, every ROI in it is a finite float,
    and the summary ROI is a finite float between -55 and 77,420
    (percent). *)
Theorem X10_widget_run (i : Inputs) :
  widget_inputs i ->
  exists (s : Summary) (d : DataFrame),
    script i = Completed s d /\
    1290 <= s_total_cost s <= 439800 /\
    10000 <= s_total_revenue s <= 20000000 /\
    (3 <= length (rows d) <= 20)%nat /\
    (forall r : Row, In r (rows d) -> is_finite (r_roi r) = true) /\
    is_finite (s_roi s) = true /\
    (-55 < to_Q (s_roi s) < 77420)%Q.
Proof.
  intros Hw.
  pose proof (widget_valid i Hw) as Hv.
  pose proof (widget_moderate i Hw) as Hm.
  destruct (script_completes_ex i Hv Hm) as (s & d & Hs).
  destruct (script_completed_inv i s d Hs)
    as (_ & _ & E3 & E4 & E5 & Er & _ & Hrows).
  destruct (table_rows i _ Hrows) as [Hlen Hnth].
  destruct (roi_correct i Hv Hm) as (g & Eg & Fg & Hg).
  assert (g = s_roi s) by congruence. subst g.
  exists s, d. split; [assumption |].
  unfold widget_inputs in Hw. cbn [In] in Hw.
  destruct Hw as (Hn & Hp & Ha & Hr & Hy).
  assert (Hn' : 10 <= num_businesses i <= 200) by lia.
  assert (Hp' : 99 <= purchase_price i <= 199) by lia.
  set (u := purchase_price i + annual_cost i * resale_year i).
  assert (Hu : 129 <= u <= 2199) by (subst u; nia).
  assert (Etc : total_cost i = num_businesses i * u)
    by (subst u; apply total_cost_factor).
  assert (Enp : net_profit i = num_businesses i * (resale_value i - u))
    by (subst u; apply net_profit_factor).
  split; [rewrite E3, Etc; nia |].
  split; [rewrite E4; unfold total_revenue; nia |].
  split; [lia |].
  split.
  - intros r Hin. destruct (In_nth_error _ _ Hin) as [k Hk].
    destruct (Hnth k r Hk) as [Hlt Hrow].
    destruct (row_at_correct i Hv Hm (Z.of_nat k + 1)) as (r0 & Hrow0 & Hfin & _);
      [lia |].
    congruence.
  - split; [assumption |].
    pose proof (total_cost_pos i Hv) as Ht.
    assert (Hlo : (inject_Z (-546) < ratio (net_profit i * 1000) (total_cost i))%Q).
    { apply ratio_gt; [assumption |]. rewrite Etc, Enp. nia. }
    assert (Hhi : (ratio (net_profit i * 1000) (total_cost i) < inject_Z 774195)%Q).
    { apply ratio_lt; [assumption |]. rewrite Etc, Enp. nia. }
    assert (ER : (ratio (net_profit i * 1000) (total_cost i)
                  == roi_exact i * 10)%Q).
    { unfold roi_exact, ratio. rewrite inject_Z_mult.
      change (inject_Z 1000) with 1000%Q. field.
      intros E. change 0%Q with (inject_Z 0) in E.
      rewrite inject_Z_injective in E. lia. }
    rewrite ER in Hlo, Hhi.
    change (inject_Z (-546)) with (-546)%Q in Hlo.
    change (inject_Z 774195) with 774195%Q in Hhi.
    unfold eps in Hg. apply Qabs_Qle_condition in Hg.
    destruct (Rounding.Qabs_elim (roi_exact i)) as [[E S] | [E S]];
      rewrite E in Hg; split; lra.
Qed.

Lemma X10_widget_run_witness :
  exists (s : Summary) (d : DataFrame),
    script widget_low = Completed s d /\
    1290 <= s_total_cost s <= 439800 /\
    10000 <= s_total_revenue s <= 20000000 /\
    (3 <= length (rows d) <= 20)%nat /\
    (forall r : Row, In r (rows d) -> is_finite (r_roi r) = true) /\
    is_finite (s_roi s) = true /\
    (-55 < to_Q (s_roi s) < 77420)%Q.
Proof.
  apply (X10_widget_run widget_low).
  unfold widget_inputs, widget_low. cbn. lia.
Defined.

(** ** Text formatting *)

Lemma uint_digits (d : Decimal.uint) :
  Forall (fun c => is_digit c = true)
         (list_ascii_of_string (NilEmpty.string_of_uint d)).
Proof.
  induction d; cbn [NilEmpty.string_of_uint list_ascii_of_string];
    constructor; (reflexivity || assumption).
Qed.

Lemma str_int_nonneg (z : Z) :
  0 <= z ->
  exists (c : ascii) (t : string),
    str_int z = String c t /\
    Forall (fun c => is_digit c = true) (list_ascii_of_string (str_int z)).
Proof.
  intros Hz. unfold str_int. destruct z as [| p | p]; [| | lia].
  - exists "0"%char, EmptyString. split; [reflexivity |].
    repeat constructor.
  - cbn [Z.to_int NilZero.string_of_int].
    pose proof (Unsigned.to_uint_nonnil p) as Hn.
    pose proof (uint_digits (Pos.to_uint p)) as Hd.
    destruct (Pos.to_uint p) eqn:E; [congruence | ..];
      cbn [NilZero.string_of_uint NilEmpty.string_of_uint] in *;
      eexists; eexists; (split; [reflexivity | exact Hd]).
Qed.

Lemma str_int_neg (p : positive) :
  str_int (Zneg p) = String "-" (str_int (Zpos p)).
Proof. reflexivity. Qed.

Lemma read_int_str_int (z : Z) : read_int (str_int z) = Some z.
Proof.
  unfold read_int, str_int. rewrite NilZero.isi.
  - cbn [option_map]. now rewrite DecimalZ.of_to.
  - destruct z; cbn; try discriminate.
    intros [= E]. now apply Unsigned.to_uint_nonnil in E.
  - destruct z; cbn; try discriminate.
    intros [= E]. now apply Unsigned.to_uint_nonnil in E.
Qed.

Lemma digit_not_comma (c : ascii) : is_digit c = true -> not_comma c = true.
Proof.
  unfold not_comma. destruct (Ascii.eqb_spec c ","%char) as [-> | ]; [| reflexivity].
  discriminate.
Qed.

Lemma filter_group3 (l : list ascii) :
  Forall (fun c => not_comma c = true) l ->
  forall k : nat, filter not_comma (group3 l k) = l.
Proof.
  induction 1 as [| c l Hc Hl IH]; intros k; [reflexivity |].
  destruct k as [| k]; cbn [group3 filter].
  - change (not_comma ","%char) with false. cbn iota. rewrite Hc, IH. reflexivity.
  - rewrite Hc, IH. reflexivity.
Qed.

Lemma remove_commas_format_comma (z : Z) :
  remove_commas (format_comma z) = str_int z.
Proof.
  assert (Hbody : forall n, 0 <= n ->
            filter not_comma
              (rev (group3 (rev (list_ascii_of_string (str_int n))) 3))
            = list_ascii_of_string (str_int n)).
  { intros n Hn. destruct (str_int_nonneg n Hn) as (_ & _ & _ & Hd).
    rewrite filter_rev, filter_group3, rev_involutive; [reflexivity |].
    apply Forall_rev. eapply Forall_impl; [| exact Hd].
    intros c. apply digit_not_comma. }
  unfold remove_commas, format_comma. fold not_comma.
  destruct (Z.ltb_spec z 0) as [Hneg | Hpos].
  - destruct z as [| p | p]; try lia.
    cbn [list_ascii_of_string filter]. change (not_comma "-"%char) with true.
    cbn iota. rewrite list_ascii_of_string_of_list_ascii.
    change (Z.abs (Zneg p)) with (Zpos p).
    rewrite Hbody by lia. cbn [string_of_list_ascii].
    now rewrite string_of_list_ascii_of_string.
  - rewrite list_ascii_of_string_of_list_ascii, Z.abs_eq, Hbody by lia.
    apply string_of_list_ascii_of_string.
Qed.

Lemma read_dollars_dollars (z : Z) : read_dollars (dollars z) = Some z.
Proof.
  unfold read_dollars, dollars.
  now rewrite remove_commas_format_comma, read_int_str_int.
Qed.

Lemma group3_nth (l : list ascii) :
  Forall (fun c => is_digit c = true) l ->
  forall (j k : nat) (c : ascii),
    (j <= 3)%nat ->
    nth_error (group3 l j) k = Some c ->
    (c = ","%char <-> exists q : nat, (k + (3 - j) = 4 * q + 3)%nat) /\
    (c <> ","%char -> is_digit c = true).
Proof.
  induction 1 as [| a l Ha Hl IH]; intros j k c Hj Hk.
  - destruct k; discriminate.
  - assert (Hac : a <> ","%char) by (intros ->; discriminate).
    destruct j as [| j]; cbn [group3] in Hk.
    + destruct k as [| [| k]]; cbn [nth_error] in Hk.
      * injection Hk as <-. split; [| congruence].
        split; [intros _; exists 0%nat; lia | reflexivity].
      * injection Hk as <-. split; [| auto].
        split; [congruence | intros [q Hq]; lia].
      * destruct (IH 2%nat k c ltac:(lia) Hk) as [[H1 H2] H3].
        split; [| assumption]. split.
        -- intros E. destruct (H1 E) as [q Hq]. exists (S q). lia.
        -- intros [q Hq]. apply H2. exists (q - 1)%nat. lia.
    + destruct k as [| k]; cbn [nth_error] in Hk.
      * injection Hk as <-. split; [| auto].
        split; [congruence | intros [q Hq]; lia].
      * destruct (IH j k c ltac:(lia) Hk) as [[H1 H2] H3].
        split; [| assumption]. split.
        -- intros E. destruct (H1 E) as [q Hq]. exists q. lia.
        -- intros [q Hq]. apply H2. exists q. lia.
Qed.

Lemma last_cons_ne {A} (a d : A) (l : list A) :
  l <> [] -> last (a :: l) d = last l d.
Proof. destruct l; [congruence | reflexivity]. Qed.

Lemma group3_ne (l : list ascii) (k : nat) : l <> [] -> group3 l k <> [].
Proof. destruct l; [congruence |]. destruct k; discriminate. Qed.

Lemma group3_last (l : list ascii) (d : ascii) :
  l <> [] -> forall k : nat, last (group3 l k) d = last l d.
Proof.
  induction l as [| a l IH]; intros Hne k; [congruence |].
  destruct l as [| b l].
  - destruct k; reflexivity.
  - assert (Hbl : b :: l <> []) by discriminate.
    rewrite (last_cons_ne a d (b :: l) Hbl).
    destruct k as [| k].
    + change (group3 (a :: b :: l) 0)
        with (","%char :: a :: group3 (b :: l) 2).
      rewrite last_cons_ne by discriminate.
      rewrite last_cons_ne by now apply group3_ne.
      now apply IH.
    + change (group3 (a :: b :: l) (S k)) with (a :: group3 (b :: l) k).
      rewrite last_cons_ne by now apply group3_ne.
      now apply IH.
Qed.

Lemma comma_groups (z : Z) :
  0 <= z ->
  (forall (k : nat) (c : ascii),
      nth_error (rev (list_ascii_of_string (format_comma z))) k = Some c ->
      (c = ","%char <-> exists q : nat, k = (4 * q + 3)%nat) /\
      (c <> ","%char -> is_digit c = true)) /\
  exists (c : ascii) (t : string),
    format_comma z = String c t /\ is_digit c = true.
Proof.
  intros Hz.
  destruct (str_int_nonneg z Hz) as (c0 & t0 & E0 & Hd).
  unfold format_comma.
  destruct (Z.ltb_spec z 0) as [| _]; [lia |].
  rewrite Z.abs_eq by lia.
  set (ds := rev (list_ascii_of_string (str_int z))).
  assert (Hds : Forall (fun c => is_digit c = true) ds)
    by (apply Forall_rev; exact Hd).
  split.
  - intros k c Hk.
    rewrite list_ascii_of_string_of_list_ascii, rev_involutive in Hk.
    destruct (group3_nth ds Hds 3 k c ltac:(lia) Hk) as [[H1 H2] H3].
    split; [| assumption]. split.
    + intros E. destruct (H1 E) as [q Hq]. exists q. lia.
    + intros [q Hq]. apply H2. exists q. lia.
  - assert (Hne : ds <> []).
    { subst ds. rewrite E0. cbn [list_ascii_of_string rev].
      intros E. apply app_eq_nil in E. destruct E; discriminate. }
    pose proof (group3_last ds "0"%char Hne 3) as Hl.
    assert (Hlast : last ds "0"%char = c0).
    { subst ds. rewrite E0. cbn [list_ascii_of_string rev].
      now rewrite last_last. }
    assert (Hgne : group3 ds 3 <> []).
    { destruct ds; [congruence | cbn; discriminate]. }
    destruct (exists_last Hgne) as (g & x & Eg).
    rewrite Eg, last_last in Hl. rewrite Eg, rev_app_distr.
    cbn [rev app string_of_list_ascii].
    exists x, (string_of_list_ascii (rev g)). split; [reflexivity |].
    rewrite Hl, Hlast. rewrite E0 in Hd. cbn [list_ascii_of_string] in Hd.
    now inversion Hd.
Qed.

Lemma round_half_even_spec (x : Q) :
  (0 <= x)%Q ->
  0 <= round_half_even x /\
  (Qabs (inject_Z (round_half_even x) - x) <= 1 # 2)%Q.
Proof.
  destruct x as [N D]. unfold Qle. cbn [Qnum Qden]. intros HN.
  rewrite Z.mul_1_r in HN. cbn in HN.
  unfold round_half_even. cbn [Qnum Qden].
  pose proof (Z.div_mod N (Zpos D) ltac:(lia)) as Hdm.
  pose proof (Z.mod_pos_bound N (Zpos D) ltac:(lia)) as Hr.
  assert (Hn : 0 <= N / Zpos D) by (apply Z.div_pos; lia).
  set (n := N / Zpos D) in *. set (r := N mod Zpos D) in *.
  assert (Hgoal : forall q : Z,
            2 * Z.abs (q * Zpos D - N) <= Zpos D ->
            (Qabs (inject_Z q - (N # D)) <= 1 # 2)%Q).
  { intros q Hq. unfold Qle, Qabs, Qminus, Qplus, Qopp, inject_Z.
    cbn [Qnum Qden]. rewrite Pos.mul_1_l.
    replace (q * Zpos D + - N * 1) with (q * Zpos D - N) by ring. lia. }
  destruct (Z.compare_spec (2 * r) (Zpos D)) as [E | L | G].
  - destruct (Z.even n); (split; [lia | apply Hgoal; nia]).
  - split; [lia | apply Hgoal; nia].
  - split; [lia | apply Hgoal; nia].
Qed.

Lemma digit_not_dot (c : ascii) :
  is_digit c = true -> Ascii.eqb c "."%char = false.
Proof.
  intros H. destruct (Ascii.eqb_spec c "."%char) as [-> | ]; [discriminate | reflexivity].
Qed.

Lemma split_dot_app (a b : string) :
  Forall (fun c => is_digit c = true) (list_ascii_of_string a) ->
  split_dot (String.append a (String "." b)) = Some (a, b).
Proof.
  induction a as [| c a IH]; intros H.
  - reflexivity.
  - cbn [list_ascii_of_string] in H. inversion H as [| ? ? Hc Ha]; subst.
    cbn [String.append split_dot]. rewrite (digit_not_dot c Hc), (IH Ha).
    reflexivity.
Qed.

Lemma read_digit_digit (k : Z) : 0 <= k <= 9 -> read_digit (digit k) = Some k.
Proof.
  intros H.
  assert (E : k = 0 \/ k = 1 \/ k = 2 \/ k = 3 \/ k = 4 \/ k = 5 \/ k = 6 \/
              k = 7 \/ k = 8 \/ k = 9) by lia.
  repeat (destruct E as [-> | E]; [reflexivity |]). subst. reflexivity.
Qed.

Lemma keep_digit_head (s : string) (c : ascii) (t : string) :
  s = String c t ->
  is_digit c = true ->
  match s with
  | String "-" t' => (true, t')
  | _ => (false, s)
  end = (false, s).
Proof.
  intros -> H.
  destruct c as [[] [] [] [] [] [] [] []]; try reflexivity; discriminate H.
Qed.

Lemma read_fixed2_body (q : Z) :
  0 <= q ->
  match split_dot (fixed2 q) with
  | Some (ip, String d1 (String d2 EmptyString)) =>
      match read_int ip, read_digit d1, read_digit d2 with
      | Some n, Some a, Some b =>
          if n <? 0 then None else Some (n * 100 + a * 10 + b)
      | _, _, _ => None
      end
  | _ => None
  end = Some q.
Proof.
  intros Hq. unfold fixed2.
  assert (H100 : 0 <= q / 100) by (apply Z.div_pos; lia).
  destruct (str_int_nonneg (q / 100) H100) as (_ & _ & _ & Hd).
  rewrite (split_dot_app _ _ Hd), read_int_str_int.
  pose proof (Z.mod_pos_bound q 100 ltac:(lia)) as H1.
  pose proof (Z.mod_pos_bound q 10 ltac:(lia)) as H2.
  assert (H3 : 0 <= q mod 100 / 10 <= 9).
  { split; [apply Z.div_pos; lia |].
    apply Z.lt_succ_r. apply Z.div_lt_upper_bound; lia. }
  rewrite !read_digit_digit by lia.
  destruct (Z.ltb_spec (q / 100) 0) as [| _]; [lia |].
  f_equal.
  pose proof (Z.div_mod q 100 ltac:(lia)) as E1.
  pose proof (Z.div_mod (q mod 100) 10 ltac:(lia)) as E2.
  assert (E3 : (q mod 100) mod 10 = q mod 10).
  { apply Z.mod_mod_divide. exists 10. reflexivity. }
  lia.
Qed.

Lemma read_fixed2_format (neg : bool) (q : Z) :
  0 <= q ->
  read_fixed2 (String.append (sign_str neg) (fixed2 q))
  = Some (inject_Z (if neg then - q else q) / 100)%Q.
Proof.
  intros Hq. pose proof (read_fixed2_body q Hq) as Hb.
  unfold read_fixed2. destruct neg; cbn [sign_str String.append].
  - destruct (split_dot (fixed2 q)) as [[ip [| d1 [| d2 [|]]]] |];
      try discriminate.
    destruct (read_int ip), (read_digit d1), (read_digit d2); try discriminate.
    destruct (z <? 0); [discriminate |]. injection Hb as <-. reflexivity.
  - assert (H100 : 0 <= q / 100) by (apply Z.div_pos; lia).
    destruct (str_int_nonneg (q / 100) H100) as (c & t & E & Hd).
    assert (Ef : exists t', fixed2 q = String c t').
    { unfold fixed2. rewrite E. cbn [String.append]. eauto. }
    destruct Ef as [t' Ef]. rewrite E in Hd. cbn [list_ascii_of_string] in Hd.
    assert (Hc : is_digit c = true) by now inversion Hd.
    rewrite (keep_digit_head (fixed2 q) c t' Ef Hc).
    destruct (split_dot (fixed2 q)) as [[ip [| d1 [| d2 [|]]]] |];
      try discriminate.
    destruct (read_int ip), (read_digit d1), (read_digit d2); try discriminate.
    destruct (z <? 0); [discriminate |]. injection Hb as <-. reflexivity.
Qed.

Lemma list_ascii_of_string_app (a b : string) :
  list_ascii_of_string (String.append a b)
  = list_ascii_of_string a ++ list_ascii_of_string b.
Proof.
  induction a as [| c a IH]; [reflexivity |].
  cbn [String.append list_ascii_of_string app]. now rewrite IH.
Qed.

Lemma read_percent_text (x : float) :
  read_percent (percent_text x) = read_fixed2 (format_2f x).
Proof.
  unfold read_percent, percent_text.
  rewrite list_ascii_of_string_app, rev_app_distr.
  cbn [list_ascii_of_string rev app]. cbn [Ascii.eqb Bool.eqb].
  now rewrite rev_involutive, string_of_list_ascii_of_string.
Qed.

(** The text [f"{x:.2f}"] of a finite float reads back as a number
    within half a hundredth of the float. *)
Lemma format_2f_reads_back (f : float) :
  is_finite f = true ->
  exists x : Q,
    read_fixed2 (format_2f f) = Some x /\
    (Qabs (x - to_Q f) <= 1 # 200)%Q.
Proof.
  destruct f as [s | s | | s m e]; intros Hf; try discriminate.
  - exists (inject_Z 0 / 100)%Q. split; [destruct s; reflexivity |].
    cbn [to_Q]. discriminate.
  - assert (Hv : (0 < inject_Z (Zpos m) * 2 ^ e)%Q).
    { apply Qmult_lt_0_compat; [now apply inject_Z_pos |].
      apply Qpower_0_lt. reflexivity. }
    destruct (round_half_even_spec (inject_Z (Zpos m) * 2 ^ e * 100))
      as [Hq Herr]; [lra |].
    fold (hundredths m e) in Hq, Herr.
    cbn [format_2f]. rewrite (read_fixed2_format s _ Hq).
    eexists. split; [reflexivity |].
    rewrite (Rounding.to_Q_finite s m e).
    apply Qabs_Qle_condition in Herr. apply Qabs_Qle_condition.
    set (v := (inject_Z (Zpos m) * 2 ^ e)%Q) in *.
    unfold Qdiv. change (/ 100)%Q with (1 # 100)%Q.
    destruct s.
    + rewrite inject_Z_opp.
      set (q := inject_Z (hundredths m e)) in *. lra.
    + set (q := inject_Z (hundredths m e)) in *. lra.
Qed.

(** X11: in every run the script completes, each of the five dollar
    metrics of lines 45-51, with the [$] and the thousands separators
    removed, reads back as exactly the integer it renders: the initial
    investment, [annual_cost * num_businesses], the total cost, the
    total revenue and the net profit, negative values included. *)
Theorem X11_dollar_metrics_read_back (i : Inputs) (s : Summary) (d : DataFrame) :
  script i = Completed s d ->
  map (fun p => read_dollars (snd p)) (firstn 5 (metrics i s))
  = [ Some (initial_investment i); Some (annual_maintenance i);
      Some (total_cost i); Some (total_revenue i); Some (net_profit i) ].
Proof.
  intros Hs.
  destruct (script_completed_inv i s d Hs) as (E1 & _ & E3 & E4 & E5 & _).
  unfold metrics. cbn [firstn map snd].
  rewrite !read_dollars_dollars, E1, E3, E4, E5. reflexivity.
Qed.

Lemma X11_dollar_metrics_read_back_witness :
  exists s : Summary,
    map (fun p => read_dollars (snd p)) (firstn 5 (metrics scenario1 s))
    = [ Some 990; Some 500; Some 5990; Some 100000; Some 94010 ].
Proof.
  eexists.
  eapply (X11_dollar_metrics_read_back scenario1).
  vm_compute. reflexivity.
Defined.

(** X12: [f"{z:,}"] prints the sign in front of the separated digits
    of [abs(z)]; read from the right, those have a comma at exactly the
    positions 3, 7, 11, ... and digits everywhere else, so every group
    after a comma has three digits, and the text starts with a digit. *)
Theorem X12_thousands_groups (z : Z) :
  format_comma z
  = String.append (sign_str (z <? 0)) (format_comma (Z.abs z)) /\
  (forall (k : nat) (c : ascii),
      nth_error (rev (list_ascii_of_string (format_comma (Z.abs z)))) k
      = Some c ->
      (c = ","%char <-> exists q : nat, k = (4 * q + 3)%nat) /\
      (c <> ","%char -> is_digit c = true)) /\
  exists (c : ascii) (t : string),
    format_comma (Z.abs z) = String c t /\ is_digit c = true.
Proof.
  split; [| apply comma_groups; lia].
  unfold format_comma at 1 2.
  destruct (Z.ltb_spec z 0) as [Hneg | Hpos];
    destruct (Z.ltb_spec (Z.abs z) 0) as [| _]; try lia.
  - now rewrite (Z.abs_eq (Z.abs z)) by lia.
  - now rewrite (Z.abs_eq (Z.abs z)) by lia.
Qed.

(** X13: for every valid input of moderate size the "Total ROI" metric
    of line 52 is a text with two decimals and a percent sign that reads
    back as a number within 0.005 of the float [roi], and within
    [0.005 + 2^-51 * |ROI|] of the exact rational ROI. *)
Theorem X13_total_roi_text (i : Inputs) (s : Summary) (d : DataFrame) :
  valid_inputs i -> moderate i ->
  script i = Completed s d ->
  exists (t : string) (x : Q),
    nth_error (metrics i s) 5 = Some ("Total ROI"%string, t) /\
    read_percent t = Some x /\
    (Qabs (x - to_Q (s_roi s)) <= 1 # 200)%Q /\
    (Qabs (x - roi_exact i) <= (1 # 200) + eps * Qabs (roi_exact i))%Q.
Proof.
  intros Hv Hm Hs.
  destruct (script_completed_inv i s d Hs) as (_ & _ & _ & _ & _ & Er & _).
  destruct (roi_correct i Hv Hm) as (g & Eg & Fg & Hg).
  assert (g = s_roi s) by congruence. subst g.
  destruct (format_2f_reads_back _ Fg) as (x & Ex & Hx).
  exists (percent_text (s_roi s)), x.
  split; [reflexivity |]. split; [now rewrite read_percent_text |].
  split; [assumption |].
  apply Qabs_Qle_condition in Hx, Hg. apply Qabs_Qle_condition.
  split; lra.
Qed.

Lemma X13_total_roi_text_witness :
  exists (s : Summary) (t : string) (x : Q),
    nth_error (metrics scenario1 s) 5 = Some ("Total ROI"%string, t) /\
    read_percent t = Some x /\
    (Qabs (x - to_Q (s_roi s)) <= 1 # 200)%Q /\
    (Qabs (x - roi_exact scenario1)
     <= (1 # 200) + eps * Qabs (roi_exact scenario1))%Q.
Proof.
  eexists.
  eapply (X13_total_roi_text scenario1).
  - repeat split; reflexivity.
  - split; vm_compute; reflexivity.
  - vm_compute. reflexivity.
Defined.
